(** * Product editing hooks of the admin client

    A shallow embedding of the two view-model hooks [useProduct] and
    [useVariantInventory] and of the state initialiser of
    [VariantInventoryForm], with the properties their specification
    states about them.

    JavaScript values are modelled as the code uses them: an identifier is
    a string or [undefined] ([option string]); [a || b] tests truthiness,
    a destructuring default [x = d] tests only for [undefined]; a thrown
    value and a rejected promise are the [inl] result of a computation
    that keeps everything done before it. *)

From Stdlib Require Import String List Bool Arith Lia ZArith.
From stdpp Require Import base option list strings gmap.
Import ListNotations.
Local Open Scope string_scope.

Set Default Proof Using "Type".

(** ** JavaScript operators *)

(** Truthiness, for the two kinds of value the hooks test. *)
Class Truthy (A : Type) := truthy : A -> bool.

(** A string is falsy when empty; [undefined] is falsy. *)
#[global] Instance truthy_id : Truthy (option string) :=
  fun v => match v with
           | Some s => negb (String.eqb s "")
           | None => false
           end.

(** A boolean field that may be [null] or missing. *)
#[global] Instance truthy_flag : Truthy (option bool) :=
  fun v => match v with
           | Some b => b
           | None => false
           end.

(** [a || b] *)
Definition js_or {A} `{Truthy A} (a b : A) : A :=
  if truthy a then a else b.

(** [!a] *)
Definition js_not {A} `{Truthy A} (a : A) : bool := negb (truthy a).

(** [arr.find(({ _id }) => _id === key)] *)
Definition find_by_id {A} (id_of : A -> string) (key : string) (arr : list A)
  : option A :=
  List.find (fun x => String.eqb (id_of x) key) arr.

(** ** Data model *)

(** A variant; an option has the same shape and sits in the [options] of
    its variant. [options] is [None] where the field is not an array. *)
#[local] Unset Elimination Schemes.
Inductive Variant : Type :=
  mkVariant (_id : string) (isVisible : option bool)
            (options : option (list Variant)).
#[local] Set Elimination Schemes.

Definition variant_id (v : Variant) : string :=
  match v with mkVariant i _ _ => i end.
Definition variant_isVisible (v : Variant) : option bool :=
  match v with mkVariant _ b _ => b end.
Definition variant_options (v : Variant) : option (list Variant) :=
  match v with mkVariant _ _ o => o end.

Record Tag := mkTag { tag_id : string }.

Record SocialMetadata := mkSocial { service : string; message : string }.

(** The product document. [product_props] holds the string properties
    that are set on the object under computed names. *)
Record Product := mkProduct {
  product_id : string;
  product_isVisible : option bool;
  product_tags : list Tag;
  product_socialMetadata : option (list SocialMetadata);
  product_variants : list Variant;
  product_props : gmap string string
}.

Record InventoryInput := mkInventoryInput {
  inventoryInStock : option Z;
  lowInventoryWarningThreshold : option Z;
  input_canBackorder : option bool;
  input_isEnabled : option bool
}.

(** ** Requests, notifications and the trace of a run *)

Inductive ProductInput :=
| ProductIsVisible (b : bool)
| ProductTagIds (ids : list string)
| ProductFields (fields : list (string * string)).

Inductive VariantInput :=
| VariantIsVisible (b : bool)
| VariantFields (fields : list (string * string)).

(** The [input] object of each mutation. *)
Inductive Request :=
| archiveProducts (shopId : option string) (productIds : list string)
| cloneProducts (shopId : option string) (productIds : list string)
| createProductVariant (productId shopId : option string)
| updateProduct (productId shopId : option string) (product : ProductInput)
| updateProductVariant (variantId shopId : option string)
                       (variant : VariantInput)
| updateSimpleInventory (inventoryInput : InventoryInput)
                        (productId productVariantId shopId : option string)
| recalculateReservedSimpleInventory
    (productId productVariantId shopId : option string).

Definition request_shopId (r : Request) : option string :=
  match r with
  | archiveProducts s _ | cloneProducts s _ | createProductVariant _ s
  | updateProduct _ s _ | updateProductVariant _ s _
  | updateSimpleInventory _ _ _ s
  | recalculateReservedSimpleInventory _ _ s => s
  end.

Inductive Severity := sev_success | sev_error.

(** What a [catch] receives: a [TypeError] of the script itself, or the
    rejection of a remote call. *)
Inductive Err :=
| TypeError
| Failure (detail : string).

Inductive Query := InventoryQuery | ProductQuery.

Inductive Event :=
| Encode (items : list (string * string))
| Mutate (input : Request)
| Toast (key : string) (err : option Err) (sev : Severity)
| Snackbar (key : string) (sev : Severity)
| Push (url : string)
| Refetch (q : Query).

(** The collaborators whose outcome the hooks do not decide: the
    opaque-identifier encoder and the mutation transport. *)
Record Remote := mkRemote {
  getOpaqueIds : list (string * string) -> Err + list string;
  send : Request -> Err + unit
}.

(** What a run can change: the product object held by the query result
    and the fetches in flight. *)
Record World := mkWorld {
  cache : option Product;
  inflight : list Query
}.

(** ** Computations

    A computation reads the collaborators, may change the world, leaves
    the trace of its calls, in order, and returns or throws. An [await] of
    a rejected promise throws; a throw that leaves an [async] handler is
    the rejection of the promise the handler returned. *)

Record Outcome (A : Type) := mkOutcome {
  world : World;
  trace : list Event;
  result : Err + A
}.
Arguments mkOutcome {A} _ _ _.
Arguments world {A} _.
Arguments trace {A} _.
Arguments result {A} _.

Definition M (A : Type) : Type := Remote -> World -> Outcome A.

Definition ret {A} (a : A) : M A := fun _ w => mkOutcome w [] (inr a).

Definition throw {A} (e : Err) : M A := fun _ w => mkOutcome w [] (inl e).

(** Run [k] from where [o] stopped, keeping the trace of [o]. *)
Definition and_then {A B} (o : Outcome A) (k : World -> Outcome B)
  : Outcome B :=
  let o' := k (world o) in
  mkOutcome (world o') (trace o ++ trace o') (result o').

Definition bind {A B} (m : M A) (k : A -> M B) : M B :=
  fun r w =>
    let o := m r w in
    match result o with
    | inr a => and_then o (k a r)
    | inl e => mkOutcome (world o) (trace o) (inl e)
    end.

(** [try { m } catch (error) { h error }] *)
Definition try_catch {A} (m : M A) (h : Err -> M A) : M A :=
  fun r w =>
    let o := m r w in
    match result o with
    | inl e => and_then o (h e r)
    | inr _ => o
    end.

Declare Scope js_scope.
Delimit Scope js_scope with js.
Notation "x <- m ;; k" := (bind m (fun x => k))
  (at level 20, m at level 99, k at level 200, only parsing) : js_scope.
Notation "m ;; k" := (bind m (fun _ => k))
  (at level 100, k at level 200, only parsing, right associativity)
  : js_scope.
Local Open Scope js_scope.

Definition emit (e : Event) : M unit := fun _ w => mkOutcome w [e] (inr tt).

(** [await getOpaqueIds(items)] *)
Definition await_getOpaqueIds (items : list (string * string))
  : M (list string) :=
  fun r w => mkOutcome w [Encode items] (getOpaqueIds r items).

(** [await mutate({ variables: { input } })] *)
Definition await_mutation (input : Request) : M unit :=
  fun r w => mkOutcome w [Mutate input] (send r input).

(** [Alerts.toast(i18next.t(key, { err }), sev)] *)
Definition Alerts_toast (key : string) (err : option Err) (sev : Severity)
  : M unit :=
  emit (Toast key err sev).

(** [enqueueSnackbar(i18next.t(key), { variant: sev })] *)
Definition enqueueSnackbar (key : string) (sev : Severity) : M unit :=
  emit (Snackbar key sev).

(** [history.push(url)] *)
Definition history_push (url : string) : M unit := emit (Push url).

(** [obj._id] where [obj] may be [undefined] *)
Definition get_id (obj : option Product) : M (option string) :=
  match obj with
  | Some p => ret (Some (product_id p))
  | None => throw TypeError
  end.

(** A destructuring default: [d] is evaluated only for [undefined]. *)
Definition or_default {A} (a : option A) (d : M (option A)) : M (option A) :=
  match a with
  | Some _ => ret a
  | None => d
  end.

(** [const { product } = productQueryResult || {}] *)
Definition read_product : M (option Product) :=
  fun _ w => mkOutcome w [] (inr (cache w)).

(** What a call returns to a caller that awaits it. *)
Inductive Returned :=
| Undefined
| PromiseOf (q : Query).

(** The [refetch] that [useQuery] hands out belongs to the query client,
    not to the hooks: it forces a new fetch and returns a promise that
    resolves when the new data has landed. Here the fetch joins the ones
    in flight and the promise names it. *)
Definition refetchQuery (q : Query) : M Returned :=
  fun _ w =>
    mkOutcome (mkWorld (cache w) (inflight w ++ [q])) [Refetch q]
              (inr (PromiseOf q)).

Definition query_eqb (a b : Query) : bool :=
  match a, b with
  | InventoryQuery, InventoryQuery | ProductQuery, ProductQuery => true
  | _, _ => false
  end.

Definition in_flight (q : Query) (w : World) : bool :=
  existsb (query_eqb q) (inflight w).

(** [await v] resumes at once on a value that is no promise, and on the
    promise of a fetch only when that fetch is no longer in flight. *)
Definition resolved (v : Returned) (w : World) : bool :=
  match v with
  | Undefined => true
  | PromiseOf q => negb (in_flight q w)
  end.

(** ** Identifier resolution (both hooks, in the same words) *)

Record RouteParams := mkRouteParams {
  route_handle : option string;
  route_variantId : option string;
  route_optionId : option string;
  route_shopId : option string
}.

Record HookArgs := mkHookArgs {
  args_productId : option string;
  args_variantId : option string;
  args_optionId : option string
}.

Record Selection := mkSelection {
  sel_productId : option string;
  sel_variantId : option string;
  sel_optionId : option string;
  sel_shopId : option string
}.

(** [routeParams.handle || productIdProp] and its three siblings. *)
Definition resolve (routeParams : RouteParams) (args : HookArgs)
    (currentShopId : option string) : Selection :=
  {| sel_productId := js_or (route_handle routeParams) (args_productId args);
     sel_variantId := js_or (route_variantId routeParams) (args_variantId args);
     sel_optionId := js_or (route_optionId routeParams) (args_optionId args);
     sel_shopId := js_or (route_shopId routeParams) currentShopId |}.

(** ** Locating the variant and the option (both hooks, in the same words) *)

(** [if (product && variantId) variant = product.variants.find(...)] *)
Definition locate_variant (product : option Product)
    (variantId : option string) : option Variant :=
  match product, variantId with
  | Some p, Some vid =>
      if truthy variantId
      then find_by_id variant_id vid (product_variants p)
      else None
  | _, _ => None
  end.

(** [if (product && variantId && optionId)
       option = variant.options.find(...)]:
    the test reads [variantId], the body dereferences [variant]. *)
Definition locate_option (product : option Product)
    (variantId optionId : option string) (variant : option Variant)
  : M (option Variant) :=
  match product, variantId, optionId with
  | Some _, Some _, Some oid =>
      if truthy variantId && truthy optionId
      then match variant with
           | None => throw TypeError
           | Some v =>
               match variant_options v with
               | None => throw TypeError
               | Some os => ret (find_by_id variant_id oid os)
               end
           end
      else ret None
  | _, _, _ => ret None
  end.

Definition locate (product : option Product)
    (variantId optionId : option string)
  : M (option Variant * option Variant) :=
  let variant := locate_variant product variantId in
  option <- locate_option product variantId optionId variant ;;
  ret (variant, option).

(** ** The hook [useProduct] *)

Module UseProduct.

(** [Array.isArray(variants) && variants.map((variant) => variant._id)];
    [None] is the [false] that a value which is no array gives. *)
Definition getVariantIds (variants : option (list Variant))
  : option (list string) :=
  match variants with
  | Some vs => Some (map variant_id vs)
  | None => None
  end.

Definition with_props (p : Product) (props : gmap string string) : Product :=
  mkProduct (product_id p) (product_isVisible p) (product_tags p)
            (product_socialMetadata p) (product_variants p) props.

(** [product[`${service}Msg`] = message], on the object the query result
    holds. *)
Definition set_product_prop (key value : string) : M unit :=
  fun _ w =>
    let write p := with_props p (<[key := value]> (product_props p)) in
    mkOutcome (mkWorld (write <$> cache w) (inflight w)) [] (inr tt).

(** [arr.forEach(f)] *)
Fixpoint forEach {A} (f : A -> M unit) (arr : list A) : M unit :=
  match arr with
  | [] => ret tt
  | x :: rest => f x ;; forEach f rest
  end.

(** [if (product && Array.isArray(product.socialMetadata))
       product.socialMetadata.forEach(...)] *)
Definition convertSocialMetadata (product : option Product) : M unit :=
  match product with
  | Some p =>
      match product_socialMetadata p with
      | Some entries =>
          forEach (fun entry =>
                     set_product_prop (service entry ++ "Msg") (message entry))
                  entries
      | None => ret tt
      end
  | None => ret tt
  end.

Record Result := mkResult {
  res_option : option Variant;
  res_product : option Product;
  res_refetchProduct : M Returned;
  res_shopId : option string;
  res_variant : option Variant
}.

(** One render pass of the hook, up to the handlers it closes over. *)
Definition useProduct (args : HookArgs) (routeParams : RouteParams)
    (currentShopId : option string) : M Result :=
  let sel := resolve routeParams args currentShopId in
  product <- read_product ;;
  found <- locate product (sel_variantId sel) (sel_optionId sel) ;;
  convertSocialMetadata product ;;
  returned <- read_product ;;
  ret {| res_option := snd found;
         res_product := returned;
         res_refetchProduct := refetchQuery ProductQuery;
         res_shopId := sel_shopId sel;
         res_variant := fst found |}.

(** The handlers close over the [product] and the [shopId] of the render
    pass that made them. *)
Section handlers.
Variable product : option Product.
Variable shopId : option string.

Definition onArchiveProduct (target : Product) (redirectUrl : string)
  : M unit :=
  opaqueProductIds <-
    await_getOpaqueIds [("Product", product_id target)] ;;
  try_catch
    (await_mutation (archiveProducts shopId opaqueProductIds) ;;
     Alerts_toast "productDetailEdit.archiveProductsSuccess" None
                   sev_success ;;
     history_push redirectUrl)
    (fun error =>
       Alerts_toast "productDetailEdit.archiveProductsFail" (Some error)
                     sev_error).

Definition onCloneProduct (target : string) : M unit :=
  opaqueProductIds <- await_getOpaqueIds [("Product", target)] ;;
  try_catch
    (await_mutation (cloneProducts shopId opaqueProductIds) ;;
     Alerts_toast "productDetailEdit.cloneProductSuccess" None
                   sev_success)
    (fun error =>
       Alerts_toast "productDetailEdit.cloneProductFail" (Some error)
                     sev_error).

Definition onCreateVariant (parentId shopIdArg : option string) : M unit :=
  parentIdLocal <- or_default parentId (get_id product) ;;
  shopIdLocal <- or_default shopIdArg (ret shopId) ;;
  try_catch
    (await_mutation (createProductVariant parentIdLocal shopIdLocal) ;;
     Alerts_toast "productDetailEdit.addVariant" None
                   sev_success)
    (fun error => Alerts_toast "productDetailEdit.addVariantFail" (Some error)
                     sev_error).

Definition onToggleProductVisibility : M unit :=
  try_catch
    (productId <- get_id product ;;
     isVisible <- match product with
                  | Some p => ret (js_not (product_isVisible p))
                  | None => throw TypeError
                  end ;;
     await_mutation
       (updateProduct productId shopId (ProductIsVisible isVisible)) ;;
     Alerts_toast "productDetailEdit.updateProductFieldSuccess" None
                   sev_success)
    (fun error =>
       Alerts_toast "productDetailEdit.updateProductFieldFail" (Some error)
                     sev_error).

Definition onUpdateProduct (productLocal : ProductInput)
    (productIdArg shopIdArg : option string) : M unit :=
  productIdLocal <- or_default productIdArg (get_id product) ;;
  shopIdLocal <- or_default shopIdArg (ret shopId) ;;
  try_catch
    (await_mutation (updateProduct productIdLocal shopIdLocal productLocal) ;;
     enqueueSnackbar "productDetailEdit.updateProductFieldSuccess"
                     sev_success)
    (fun error =>
       enqueueSnackbar "productDetailEdit.updateProductFieldFail" sev_error).

Definition handleDeleteProductTag (tagLocal : Tag)
    (productArg : option Product) (productIdArg shopIdArg : option string)
  : M unit :=
  productLocal <- or_default productArg (ret product) ;;
  productIdLocal <- or_default productIdArg (get_id product) ;;
  shopIdLocal <- or_default shopIdArg (ret shopId) ;;
  filteredTagIds <-
    match productLocal with
    | Some p =>
        ret (map tag_id
               (List.filter
                  (fun t => negb (String.eqb (tag_id t) (tag_id tagLocal)))
                  (product_tags p)))
    | None => throw TypeError
    end ;;
  try_catch
    (await_mutation
       (updateProduct productIdLocal shopIdLocal
                      (ProductTagIds filteredTagIds)) ;;
     enqueueSnackbar "productDetailEdit.removeProductTagSuccess" sev_success)
    (fun error =>
       enqueueSnackbar "productDetailEdit.removeProductTagFail" sev_error).

Definition onUpdateProductVariant (variantLocal : VariantInput)
    (variantIdLocal shopIdArg : option string) : M unit :=
  shopIdLocal <- or_default shopIdArg (ret shopId) ;;
  try_catch
    (await_mutation
       (updateProductVariant variantIdLocal shopIdLocal variantLocal) ;;
     Alerts_toast "productDetailEdit.updateProductFieldSuccess" None
                   sev_success)
    (fun error =>
       Alerts_toast "productDetailEdit.updateProductFieldFail" (Some error)
                     sev_error).

(** The default of [shopId] is written [shopId._id]: a property of a
    string, which is [undefined], or of [undefined], which throws. *)
Definition onToggleVariantVisibility (variantLocal : Variant)
    (shopIdArg : option string) : M unit :=
  shopIdLocal <-
    or_default shopIdArg
      (match shopId with
       | Some _ => ret None
       | None => throw TypeError
       end) ;;
  try_catch
    (await_mutation
       (updateProductVariant
          (Some (variant_id variantLocal)) shopIdLocal
          (VariantIsVisible (js_not (variant_isVisible variantLocal)))) ;;
     Alerts_toast "productDetailEdit.updateProductFieldSuccess" None
                   sev_success)
    (fun error =>
       Alerts_toast "productDetailEdit.updateProductFieldFail" (Some error)
                     sev_error).

End handlers.

(** The object [onUpdateProductVariant] destructures. *)
Record VariantArgs := mkVariantArgs {
  arg_variant : VariantInput;
  arg_variantId : option string;
  arg_shopId : option string
}.

(** [onUpdateProductVariant] as it is called: with the object it
    destructures, or without one, which throws before the body runs. *)
Definition callOnUpdateProductVariant (shopId : option string)
    (args : option VariantArgs) : M unit :=
  match args with
  | Some a =>
      onUpdateProductVariant shopId (arg_variant a) (arg_variantId a)
                             (arg_shopId a)
  | None => throw TypeError
  end.

End UseProduct.

(** ** The hook [useVariantInventory] *)

Module UseVariantInventory.

(** [const productVariantId = optionId || variantId] *)
Definition productVariantId (sel : Selection) : option string :=
  js_or (sel_optionId sel) (sel_variantId sel).

(** The variables of the inventory query. *)
Record InventoryQueryVariables := mkInventoryQueryVariables {
  query_productId : option string;
  query_productVariantId : option string;
  query_shopId : option string
}.

Definition inventoryQueryVariables (sel : Selection)
  : InventoryQueryVariables :=
  {| query_productId := sel_productId sel;
     query_productVariantId := productVariantId sel;
     query_shopId := sel_shopId sel |}.

(** The object a caller passes to the two handlers. Both patterns bind
    [productVariantId] twice and never read [shopId]. *)
Record HandlerArgs := mkHandlerArgs {
  arg_inventoryInput : InventoryInput;
  arg_productId : option string;
  arg_productVariantId : option string;
  arg_shopId : option string
}.

(** A destructuring default whose default cannot throw. *)
Definition default_to {A} (d : option A) (a : option A) : option A :=
  match a with
  | Some _ => a
  | None => d
  end.

(** Destructuring the argument: a call without one throws. *)
Definition destructure (args : option HandlerArgs) : M HandlerArgs :=
  match args with
  | Some a => ret a
  | None => throw TypeError
  end.

Section handlers.
Variable sel : Selection.

Definition onUpdateVariantInventoryInfo (args : option HandlerArgs)
  : M unit :=
  a <- destructure args ;;
  let productIdLocal := default_to (sel_productId sel) (arg_productId a) in
  let productVariantIdLocal :=
    default_to (productVariantId sel) (arg_productVariantId a) in
  let shopIdLocal := default_to (sel_shopId sel) (arg_productVariantId a) in
  try_catch
    (await_mutation
       (updateSimpleInventory (arg_inventoryInput a) productIdLocal
                              productVariantIdLocal shopIdLocal) ;;
     enqueueSnackbar "productDetailEdit.updateProductFieldSuccess"
                     sev_success)
    (fun error =>
       enqueueSnackbar "productDetailEdit.removeProductTagFail" sev_error).

Definition onRecalculateReservedSimpleInventory
    (args : option HandlerArgs) : M unit :=
  a <- destructure args ;;
  let productIdLocal := default_to (sel_productId sel) (arg_productId a) in
  let productVariantIdLocal :=
    default_to (productVariantId sel) (arg_productVariantId a) in
  let shopIdLocal := default_to (sel_shopId sel) (arg_productVariantId a) in
  try_catch
    (await_mutation
       (recalculateReservedSimpleInventory productIdLocal
                                           productVariantIdLocal
                                           shopIdLocal) ;;
     enqueueSnackbar "productDetailEdit.updateProductFieldSuccess"
                     sev_success)
    (fun error =>
       enqueueSnackbar "productDetailEdit.removeProductTagFail" sev_error).

End handlers.

(** [refetch: () => { refetchInventory(); refetchProduct(); }] *)
Definition refetch : M Returned :=
  refetchQuery InventoryQuery ;;
  refetchQuery ProductQuery ;;
  ret Undefined.

(** [currentVariant && Array.isArray(currentVariant.options)
     && currentVariant.options.length], as a truth value. *)
Definition hasChildVariants (currentVariant : option Variant) : bool :=
  match currentVariant with
  | Some v =>
      match variant_options v with
      | Some os => negb (Nat.eqb (length os) 0)
      | None => false
      end
  | None => false
  end.

Record Result := mkResult {
  res_currentVariant : option Variant;
  res_hasChildVariants : bool;
  res_queryVariables : InventoryQueryVariables;
  res_option : option Variant;
  res_product : option Product;
  res_refetch : M Returned;
  res_variant : option Variant
}.

(** One render pass of the hook, up to the handlers it closes over. *)
Definition useVariantInventory (args : HookArgs) (routeParams : RouteParams)
    (currentShopId : option string) : M Result :=
  let sel := resolve routeParams args currentShopId in
  product <- read_product ;;
  found <- locate product (sel_variantId sel) (sel_optionId sel) ;;
  let currentVariant :=
    match snd found with
    | Some o => Some o
    | None => fst found
    end in
  ret {| res_currentVariant := currentVariant;
         res_hasChildVariants := hasChildVariants currentVariant;
         res_queryVariables := inventoryQueryVariables sel;
         res_option := snd found;
         res_product := product;
         res_refetch := refetch;
         res_variant := fst found |}.

End UseVariantInventory.

(** ** The state initialiser of [VariantInventoryForm] *)

Module VariantInventoryForm.

Record InventoryInfo := mkInventoryInfo {
  info_canBackorder : option bool;
  info_inventoryInStock : option Z;
  info_inventoryReserved : option Z;
  info_isEnabled : option bool;
  info_lowInventoryWarningThreshold : option Z
}.

(** [useState()] twice: both start [undefined]. *)
Record FormState := mkFormState {
  isEnabled : option bool;
  canBackorder : option bool
}.

Definition initialState : FormState :=
  {| isEnabled := None; canBackorder := None |}.

(** The effect that runs when [inventoryInfo] changes. *)
Definition onInventoryInfo (inventoryInfo : option InventoryInfo)
    (st : FormState) : FormState :=
  match inventoryInfo with
  | Some info =>
      {| isEnabled := js_or (info_isEnabled info) (Some false);
         canBackorder := js_or (info_canBackorder info) (Some true) |}
  | None => st
  end.

(** [checked={isEnabled ? canBackorder : true}] *)
Definition backorderChecked (st : FormState) : option bool :=
  if truthy (isEnabled st) then canBackorder st else Some true.

(** A number field that may be [null] or missing: zero is falsy. *)
#[global] Instance truthy_number : Truthy (option Z) :=
  fun v => match v with
           | Some z => negb (Z.eqb z 0)
           | None => false
           end.

(** [(x || 0)], read as a number. *)
Definition or_zero (x : option Z) : Z :=
  match js_or x (Some 0%Z) with
  | Some z => z
  | None => 0%Z
  end.

(** [Math.max((inventoryInStock || 0) - (inventoryReserved || 0), 0)],
    the figure of the helper text under the stock field, on integer
    counts of magnitude at most 2^52: there the doubles of the script
    subtract exactly. *)
Definition inventoryAvailableToSell (inventoryInStock inventoryReserved
                                     : option Z) : Z :=
  Z.max (or_zero inventoryInStock - or_zero inventoryReserved) 0.

(** What the component returns. *)
Inductive View :=
| RenderNull
| RenderLoading
| RenderNoInventoryTracking
| RenderForm.

(** [if (!currentVariant) return null;
     if (isLoadingInventoryInfo) return <Components.Loading />;
     if (hasChildVariants) ... else ...] *)
Definition render (currentVariant : option Variant)
    (isLoadingInventoryInfo hasChildVariants : bool) : View :=
  match currentVariant with
  | None => RenderNull
  | Some _ =>
      if isLoadingInventoryInfo then RenderLoading
      else if hasChildVariants then RenderNoInventoryTracking
      else RenderForm
  end.

(** The two state cells of the flags, and the one of the submit button. *)
Record Component := mkComponent {
  state : FormState;
  isSubmitting : bool
}.

(** The effect, on the component. *)
Definition inventoryInfoArrived (inventoryInfo : option InventoryInfo)
    (c : Component) : Component :=
  mkComponent (onInventoryInfo inventoryInfo (state c)) (isSubmitting c).

(** [{ ...formData, isEnabled, canBackorder }] *)
Definition withFlags (formData : InventoryInfo) (st : FormState)
  : InventoryInfo :=
  mkInventoryInfo (canBackorder st) (info_inventoryInStock formData)
                  (info_inventoryReserved formData) (isEnabled st)
                  (info_lowInventoryWarningThreshold formData).

Section submit.
(** [formSchema.clean], the schema library's. *)
Variable clean : InventoryInfo -> InventoryInput.
Variable sel : Selection.

(** [onSubmit(formData)] of the form: the flag of the submit button is
    raised, the handler awaited, the flag lowered. *)
Definition onSubmit (formData : InventoryInfo) (c : Component)
  : M Component :=
  let submitting := mkComponent (state c) true in
  UseVariantInventory.onUpdateVariantInventoryInfo
    sel
    (Some (UseVariantInventory.mkHandlerArgs
             (clean (withFlags formData (state submitting)))
             None None None)) ;;
  ret (mkComponent (state submitting) false).

(** [onClick={() => { onRecalculateReservedSimpleInventory(); }}] *)
Definition onRecalculateClick : M unit :=
  UseVariantInventory.onRecalculateReservedSimpleInventory sel None.

End submit.

End VariantInventoryForm.

(** ** Operations and what a trace shows *)

(** The mutation handlers of the two hooks, each with the arguments of one
    call. *)
Inductive Operation :=
| ArchiveProduct (target : Product) (redirectUrl : string)
| CloneProduct (target : string)
| CreateVariant (parentId shopId : option string)
| ToggleProductVisibility
| UpdateProduct (fields : ProductInput) (productId shopId : option string)
| DeleteProductTag (tag : Tag) (product : option Product)
                   (productId shopId : option string)
| UpdateProductVariant (fields : VariantInput)
                       (variantId shopId : option string)
| ToggleVariantVisibility (target : Variant) (shopId : option string)
| UpdateVariantInventoryInfo (args : option UseVariantInventory.HandlerArgs)
| RecalculateReservedSimpleInventory
    (args : option UseVariantInventory.HandlerArgs).

(** One call of a handler made by a render pass that loaded [product] and
    resolved [sel]. *)
Definition perform (product : option Product) (sel : Selection)
    (op : Operation) : M unit :=
  let shopId := sel_shopId sel in
  match op with
  | ArchiveProduct target redirectUrl =>
      UseProduct.onArchiveProduct shopId target redirectUrl
  | CloneProduct target => UseProduct.onCloneProduct shopId target
  | CreateVariant parentId shopIdArg =>
      UseProduct.onCreateVariant product shopId parentId shopIdArg
  | ToggleProductVisibility =>
      UseProduct.onToggleProductVisibility product shopId
  | UpdateProduct fields productId shopIdArg =>
      UseProduct.onUpdateProduct product shopId fields productId shopIdArg
  | DeleteProductTag tag productArg productId shopIdArg =>
      UseProduct.handleDeleteProductTag product shopId tag productArg
                                        productId shopIdArg
  | UpdateProductVariant fields variantId shopIdArg =>
      UseProduct.onUpdateProductVariant shopId fields variantId shopIdArg
  | ToggleVariantVisibility target shopIdArg =>
      UseProduct.onToggleVariantVisibility shopId target shopIdArg
  | UpdateVariantInventoryInfo args =>
      UseVariantInventory.onUpdateVariantInventoryInfo sel args
  | RecalculateReservedSimpleInventory args =>
      UseVariantInventory.onRecalculateReservedSimpleInventory sel args
  end.

Definition severity_eqb (a b : Severity) : bool :=
  match a, b with
  | sev_success, sev_success | sev_error, sev_error => true
  | _, _ => false
  end.

Definition is_notification (sev : Severity) (e : Event) : bool :=
  match e with
  | Toast _ _ s | Snackbar _ s => severity_eqb s sev
  | _ => false
  end.

(** How many notifications of one severity a trace holds. *)
Definition notifications (sev : Severity) (t : list Event) : nat :=
  length (List.filter (is_notification sev) t).

Definition is_push (e : Event) : bool :=
  match e with
  | Push _ => true
  | _ => false
  end.

Definition navigations (t : list Event) : nat :=
  length (List.filter is_push t).

(** The inputs submitted to the mutation transport, in order. *)
Fixpoint submitted (t : list Event) : list Request :=
  match t with
  | [] => []
  | Mutate input :: rest => input :: submitted rest
  | _ :: rest => submitted rest
  end.

Definition request_isVisible (q : Request) : option bool :=
  match q with
  | updateProduct _ _ (ProductIsVisible b) => Some b
  | updateProductVariant _ _ (VariantIsVisible b) => Some b
  | _ => None
  end.

Definition request_productVariantId (q : Request) : option string :=
  match q with
  | updateSimpleInventory _ _ pv _ => pv
  | recalculateReservedSimpleInventory _ pv _ => pv
  | _ => None
  end.

(** ** What the properties speak of *)

(** The route parameter is taken when it is truthy (a non-empty string),
    the fallback otherwise. *)
Definition route_first (route fallback resolved : option string) : Prop :=
  (truthy route = true -> resolved = route) /\
  (truthy route = false -> resolved = fallback).

(** The failure of a mutation call was caught and shown once, and nothing
    followed it. *)
Definition caught_and_notified (o : Outcome unit) : Prop :=
  result o = inr tt /\
  notifications sev_error (trace o) = 1 /\
  notifications sev_success (trace o) = 0 /\
  navigations (trace o) = 0.

(** The success of a mutation call was shown once. *)
Definition notified_success (o : Outcome unit) : Prop :=
  result o = inr tt /\
  notifications sev_success (trace o) = 1 /\
  notifications sev_error (trace o) = 0.

(** The failure of the encoding step left the handler: the promise of the
    handler is rejected with that error, nothing was shown and no mutation
    was attempted. *)
Definition escaped (e : Err) (items : list (string * string))
    (o : Outcome unit) : Prop :=
  result o = inl e /\
  trace o = [Encode items] /\
  notifications sev_error (trace o) = 0.

(** The properties after the conversion of [entries], in order: a later
    entry of the same service overwrites an earlier one. *)
Definition socialProps (entries : list SocialMetadata)
    (props : gmap string string) : gmap string string :=
  foldl (fun m entry => <[service entry ++ "Msg" := message entry]> m)
        props entries.

(** The product after the conversion of its social metadata. *)
Definition converted (p : Product) : Product :=
  UseProduct.with_props p
    (socialProps (default [] (product_socialMetadata p)) (product_props p)).

(** The message of the last entry that writes the property [key]. *)
Fixpoint last_message (entries : list SocialMetadata) (key : string)
  : option string :=
  match entries with
  | [] => None
  | entry :: rest =>
      match last_message rest key with
      | Some m => Some m
      | None =>
          if String.eqb (service entry ++ "Msg") key
          then Some (message entry)
          else None
      end
  end.

(** Every notification of a trace, of either severity. *)
Definition shown (t : list Event) : nat :=
  notifications sev_success t + notifications sev_error t.

Definition request_tagIds (q : Request) : option (list string) :=
  match q with
  | updateProduct _ _ (ProductTagIds ids) => Some ids
  | _ => None
  end.

(** A notification of the given severity. *)
Definition is_note (sev : Severity) (e : Event) : Prop :=
  match e with
  | Toast _ _ s | Snackbar _ s => s = sev
  | _ => False
  end.

(** What a handler has done before its try block: nothing, or the
    encoding of its target. *)
Definition encoding_only (pre : list Event) : Prop :=
  pre = [] \/ exists items, pre = [Encode items].

(** The four ways a call of a handler ends: rejected before the try
    block; caught inside it before any request; request accepted; request
    refused. *)
Inductive Shape (r : Remote) (w : World) : Outcome unit -> Prop :=
| shape_rejected e pre :
    encoding_only pre -> Shape r w (mkOutcome w pre (inl e))
| shape_caught note :
    is_note sev_error note -> Shape r w (mkOutcome w [note] (inr tt))
| shape_accepted pre q note nav :
    encoding_only pre -> send r q = inr tt -> is_note sev_success note ->
    (nav = [] \/ exists url, nav = [Push url]) ->
    Shape r w (mkOutcome w (pre ++ Mutate q :: note :: nav) (inr tt))
| shape_refused pre q e note :
    encoding_only pre -> send r q = inl e -> is_note sev_error note ->
    Shape r w (mkOutcome w (pre ++ [Mutate q; note]) (inr tt)).

(** The located variant is one of the product's and carries the variant
    id; the located option is one of that variant's and carries the option
    id. *)
Definition scoped (product : option Product)
    (variantId optionId : option string)
    (variant option : option Variant) : Prop :=
  (forall v, variant = Some v ->
             exists p, product = Some p /\ In v (product_variants p) /\
                       variantId = Some (variant_id v)) /\
  (forall o, option = Some o ->
             exists v os, variant = Some v /\
                          variant_options v = Some os /\ In o os /\
                          optionId = Some (variant_id o)).

(** The option lookup is entered with nothing to look into: a product is
    loaded and both ids are present, but no variant is located or the
    located one has no options array. *)
Definition lookup_unguarded (product : option Product)
    (variantId optionId : option string) : Prop :=
  is_Some product /\ truthy variantId = true /\ truthy optionId = true /\
  match locate_variant product variantId with
  | Some v => variant_options v = None
  | None => True
  end.

Definition present {A} (a : option A) : bool :=
  match a with
  | Some _ => true
  | None => false
  end.

(** Whether a call gets as far as its remote call: the encoder of archive
    and clone has answered; the handlers that default to the loaded
    product have an identifier to send; the variant toggle has a shop to
    read its default from; the inventory handlers have an object to
    destructure. *)
Definition reaches_remote (product : option Product) (sel : Selection)
    (op : Operation) (r : Remote) : bool :=
  match op with
  | ArchiveProduct target _ =>
      match getOpaqueIds r [("Product", product_id target)] with
      | inr _ => true
      | inl _ => false
      end
  | CloneProduct target =>
      match getOpaqueIds r [("Product", target)] with
      | inr _ => true
      | inl _ => false
      end
  | CreateVariant parentId _ => present parentId || present product
  | ToggleProductVisibility => present product
  | UpdateProduct _ productId _ => present productId || present product
  | DeleteProductTag _ productArg productId _ =>
      present product || (present productArg && present productId)
  | UpdateProductVariant _ _ _ => true
  | ToggleVariantVisibility _ shopIdArg =>
      present shopIdArg || present (sel_shopId sel)
  | UpdateVariantInventoryInfo args => present args
  | RecalculateReservedSimpleInventory args => present args
  end.

(** The request is for the mutation of the operation. *)
Definition same_mutation (op : Operation) (q : Request) : bool :=
  match op, q with
  | ArchiveProduct _ _, archiveProducts _ _
  | CloneProduct _, cloneProducts _ _
  | CreateVariant _ _, createProductVariant _ _
  | ToggleProductVisibility, updateProduct _ _ (ProductIsVisible _)
  | UpdateProduct _ _ _, updateProduct _ _ _
  | DeleteProductTag _ _ _ _, updateProduct _ _ (ProductTagIds _)
  | UpdateProductVariant _ _ _, updateProductVariant _ _ _
  | ToggleVariantVisibility _ _,
    updateProductVariant _ _ (VariantIsVisible _)
  | UpdateVariantInventoryInfo _, updateSimpleInventory _ _ _ _
  | RecalculateReservedSimpleInventory _,
    recalculateReservedSimpleInventory _ _ _ => true
  | _, _ => false
  end.

(** How often a successful call navigates. *)
Definition redirects (op : Operation) : nat :=
  match op with
  | ArchiveProduct _ _ => 1
  | _ => 0
  end.

(** A count the doubles of the script hold and subtract exactly. *)
Definition exact_count (c : option Z) : Prop :=
  match c with
  | Some z => (- 2 ^ 52 <= z <= 2 ^ 52)%Z
  | None => True
  end.

(** ** Tactics *)

Ltac unfold_handlers :=
  unfold perform,
    UseProduct.onArchiveProduct, UseProduct.onCloneProduct,
    UseProduct.onCreateVariant, UseProduct.onToggleProductVisibility,
    UseProduct.onUpdateProduct, UseProduct.handleDeleteProductTag,
    UseProduct.onUpdateProductVariant, UseProduct.onToggleVariantVisibility,
    UseVariantInventory.onUpdateVariantInventoryInfo,
    UseVariantInventory.onRecalculateReservedSimpleInventory,
    UseVariantInventory.destructure,
    bind, try_catch, and_then, await_getOpaqueIds, await_mutation,
    or_default, get_id, ret, throw, Alerts_toast, enqueueSnackbar,
    history_push, emit.

(** Case analysis on every argument and every answer a handler tests. *)
Ltac split_cases :=
  repeat (cbn;
          match goal with
          | |- context [send ?r ?q] => destruct (send r q) as [?|[]] eqn:?
          | |- context [getOpaqueIds ?r ?i] =>
              destruct (getOpaqueIds r i) eqn:?
          | |- context [match ?x with _ => _ end] => is_var x; destruct x
          end);
  cbn.

Ltac run_handler sel op :=
  destruct sel as [? ? ? ?]; destruct op; unfold_handlers; split_cases.

Ltac find_shape :=
  first
    [ apply shape_rejected; first [now left | right; eexists; reflexivity]
    | apply shape_caught; reflexivity
    | eapply (shape_accepted _ _ []);
      [now left | eassumption | reflexivity
      | first [now left | right; eexists; reflexivity]]
    | eapply (shape_accepted _ _ [_]);
      [right; eexists; reflexivity | eassumption | reflexivity
      | first [now left | right; eexists; reflexivity]]
    | eapply (shape_refused _ _ []);
      [now left | eassumption | reflexivity]
    | eapply (shape_refused _ _ [_]);
      [right; eexists; reflexivity | eassumption | reflexivity] ].

(** Case analysis on the shape of an outcome, down to concrete traces. *)
Ltac by_shape H :=
  destruct H as
    [? ? [->|[? ->]]
    |[] ?
    |? ? [] ? [->|[? ->]] ? ? [->|[? ->]]
    |? ? ? [] [->|[? ->]] ? ?];
  cbn [result trace world] in *;
  try contradiction;
  repeat match goal with
         | H : is_note _ _ |- _ => cbn in H; subst
         end.


(** Evaluation of a call, splitting on what the remote answers. *)
Ltac evaluate :=
  lazy -[send getOpaqueIds iff not In];
  repeat (match goal with
          | |- context [send ?r ?q] => destruct (send r q) as [?|[]] eqn:?
          | |- context [getOpaqueIds ?r ?i] =>
              destruct (getOpaqueIds r i) eqn:?
          | |- context [match ?x with _ => _ end] => is_var x; destruct x
          end; lazy -[send getOpaqueIds iff not In]).

(** * Properties *)

(** ** Computation rules *)

(** A step that calls nothing hands its world on. *)
Lemma bind_silent {A B} (m : M A) (k : A -> M B) r w w' a :
  m r w = mkOutcome w' [] (inr a) ->
  bind m k r w = k a r w'.
Proof.
  intros H. unfold bind, and_then. rewrite H. cbn. now destruct (k a r w').
Qed.

Lemma bind_silent_throw {A B} (m : M A) (k : A -> M B) r w w' e :
  m r w = mkOutcome w' [] (inl e) ->
  bind m k r w = mkOutcome w' [] (inl e).
Proof. intros H. unfold bind. now rewrite H. Qed.

Lemma js_or_truthy {A} `{Truthy A} (a b : A) :
  truthy a = true -> js_or a b = a.
Proof. intros Ha. unfold js_or. now rewrite Ha. Qed.

Lemma js_or_falsy {A} `{Truthy A} (a b : A) :
  truthy a = false -> js_or a b = b.
Proof. intros Ha. unfold js_or. now rewrite Ha. Qed.

(** ** Identifier resolution *)

Lemma js_or_route_first (route fallback : option string) :
  route_first route fallback (js_or route fallback).
Proof.
  split; intros Ht; [apply js_or_truthy | apply js_or_falsy]; exact Ht.
Qed.

(** C7. For each of the four pairs (product id, variant id, option id,
    shop id) the resolved identifier is the route parameter whenever the
    route parameter is present (a non-empty string), and the explicit
    argument (the current shop id for the shop) when it is absent; the
    fallback is used only then: a resolved identifier that differs from
    the route parameter means the route parameter is absent. *)
Theorem resolve_route_precedence (routeParams : RouteParams)
    (args : HookArgs) (currentShopId : option string) :
  let sel := resolve routeParams args currentShopId in
  route_first (route_handle routeParams) (args_productId args)
              (sel_productId sel) /\
  route_first (route_variantId routeParams) (args_variantId args)
              (sel_variantId sel) /\
  route_first (route_optionId routeParams) (args_optionId args)
              (sel_optionId sel) /\
  route_first (route_shopId routeParams) currentShopId (sel_shopId sel) /\
  (sel_productId sel <> route_handle routeParams ->
   truthy (route_handle routeParams) = false) /\
  (sel_variantId sel <> route_variantId routeParams ->
   truthy (route_variantId routeParams) = false) /\
  (sel_optionId sel <> route_optionId routeParams ->
   truthy (route_optionId routeParams) = false) /\
  (sel_shopId sel <> route_shopId routeParams ->
   truthy (route_shopId routeParams) = false).
Proof.
  cbv zeta. unfold resolve.
  cbn [sel_productId sel_variantId sel_optionId sel_shopId].
  repeat split;
    try (apply js_or_truthy; assumption);
    try (apply js_or_falsy; assumption);
    intros Hne;
    match goal with
    | |- truthy ?x = false =>
        destruct (truthy x) eqn:Ht; [|reflexivity];
        exfalso; apply Hne; apply js_or_truthy; exact Ht
    end.
Qed.

(** A route that names product, variant and shop but no option, against
    explicit arguments that name all three. *)
Lemma resolve_route_precedence_witness :
  resolve (mkRouteParams (Some "p-route") (Some "v-route") None
                         (Some "s-route"))
          (mkHookArgs (Some "p-arg") (Some "v-arg") (Some "o-arg"))
          (Some "s-current")
  = mkSelection (Some "p-route") (Some "v-route") (Some "o-arg")
                (Some "s-route").
Proof.
  pose proof (resolve_route_precedence
                (mkRouteParams (Some "p-route") (Some "v-route") None
                               (Some "s-route"))
                (mkHookArgs (Some "p-arg") (Some "v-arg") (Some "o-arg"))
                (Some "s-current")) as (Hp & Hv & Ho & Hs & _).
  destruct Hp as [Hp _], Hv as [Hv _], Ho as [_ Ho], Hs as [Hs _].
  cbv zeta in *.
  destruct (resolve _ _ _) as [p v o s]; simpl in *.
  rewrite (Hp eq_refl), (Hv eq_refl), (Ho eq_refl), (Hs eq_refl).
  reflexivity.
Defined.

(** ** Locating the variant and the option *)

Lemma find_by_id_none {A} (id_of : A -> string) key (arr : list A) :
  (forall x, In x arr -> id_of x <> key) ->
  find_by_id id_of key arr = None.
Proof.
  intros Hno. unfold find_by_id.
  induction arr as [|x rest IH]; simpl; [reflexivity|].
  destruct (String.eqb_spec (id_of x) key) as [Heq|_].
  - exfalso. apply (Hno x); [now left | exact Heq].
  - apply IH. intros y Hy. apply Hno. now right.
Qed.

Lemma find_by_id_some {A} (id_of : A -> string) key (arr : list A) x :
  find_by_id id_of key arr = Some x -> In x arr /\ id_of x = key.
Proof.
  unfold find_by_id. intros Hf. apply List.find_some in Hf as [Hin Heq].
  split; [exact Hin | now apply String.eqb_eq].
Qed.

(** The located variant is the first one of the product with that id. *)
Lemma locate_variant_first_match (p : Product) (vid : string) (v : Variant) :
  locate_variant (Some p) (Some vid) = Some v ->
  In v (product_variants p) /\ variant_id v = vid.
Proof.
  unfold locate_variant. destruct (truthy (Some vid)); [|discriminate].
  apply find_by_id_some.
Qed.

Example locate_second_variant :
  let v1 := mkVariant "v1" None None in
  let v2 := mkVariant "v2" None None in
  let p := mkProduct "p1" None [] None [v1; v2] ∅ in
  locate_variant (Some p) (Some "v2") = Some v2 /\
  locate_variant (Some p) (Some "v3") = None /\
  locate_variant (Some p) None = None.
Proof. cbv zeta. repeat split; reflexivity. Qed.

(** Whenever a product is loaded and both ids are present, a variant id
    that names no variant makes the locator throw: the option lookup is
    entered and dereferences the missing variant. *)
Lemma locate_throws_without_variant (p : Product) (vid oid : string) r w :
  vid <> "" -> oid <> "" ->
  (forall v, In v (product_variants p) -> variant_id v <> vid) ->
  result (locate (Some p) (Some vid) (Some oid) r w) = inl TypeError.
Proof.
  intros Hv Ho Hno.
  unfold locate, locate_variant, locate_option.
  assert (Htv : truthy (Some vid) = true).
  { unfold truthy, truthy_id. now destruct (String.eqb_spec vid ""). }
  assert (Hto : truthy (Some oid) = true).
  { unfold truthy, truthy_id. now destruct (String.eqb_spec oid ""). }
  rewrite Htv, Hto, (find_by_id_none _ _ _ Hno). reflexivity.
Qed.

(** C2. The option lookup is not guarded by the located variant: with a
    product whose variants are v1 and v2, the variant id v3 and the option
    id o1, both hooks enter the option lookup without a located variant
    and the render pass throws a TypeError, where the specification has
    the lookup skipped and the option left undefined. *)
Theorem locate_option_unguarded :
  let o1 := mkVariant "o1" (Some true) None in
  let v1 := mkVariant "v1" (Some true) (Some [o1]) in
  let v2 := mkVariant "v2" (Some true) (Some []) in
  let p := mkProduct "p1" (Some true) [] None [v1; v2] ∅ in
  let w := mkWorld (Some p) [] in
  let r := mkRemote (fun _ => inr []) (fun _ => inr tt) in
  let route := mkRouteParams (Some "p1") (Some "v3") (Some "o1") None in
  let args := mkHookArgs None None None in
  locate_variant (Some p) (Some "v3") = None /\
  result (locate (Some p) (Some "v3") (Some "o1") r w) = inl TypeError /\
  result (UseProduct.useProduct args route (Some "shop1") r w)
    = inl TypeError /\
  result (UseVariantInventory.useVariantInventory args route (Some "shop1")
                                                  r w)
    = inl TypeError.
Proof. cbv zeta. repeat split; reflexivity. Qed.

(** ** The shop id of a request *)

(** What the two inventory handlers submit as [shopId]: the caller's
    [productVariantId] when there is one, the resolved shop id otherwise;
    the caller's [shopId] is not read. *)
Lemma inventory_handlers_shopId (sel : Selection)
    (a : UseVariantInventory.HandlerArgs) r w :
  let sent :=
    UseVariantInventory.default_to
      (sel_shopId sel) (UseVariantInventory.arg_productVariantId a) in
  map request_shopId
      (submitted
         (trace (UseVariantInventory.onUpdateVariantInventoryInfo
                   sel (Some a) r w)))
    = [sent] /\
  map request_shopId
      (submitted
         (trace (UseVariantInventory.onRecalculateReservedSimpleInventory
                   sel (Some a) r w)))
    = [sent].
Proof.
  unfold UseVariantInventory.onUpdateVariantInventoryInfo,
    UseVariantInventory.onRecalculateReservedSimpleInventory,
    UseVariantInventory.destructure,
    bind, try_catch, and_then, await_mutation, ret, enqueueSnackbar, emit.
  simpl. split; destruct (send r _); reflexivity.
Qed.

(** What the variant toggle submits as [shopId] when the caller gives
    none and a shop is resolved: [undefined]. *)
Lemma toggle_variant_default_shopId (shop : string) (v : Variant) r w :
  map request_shopId
      (submitted
         (trace (UseProduct.onToggleVariantVisibility (Some shop) v None
                                                      r w)))
    = [None].
Proof.
  unfold UseProduct.onToggleVariantVisibility, bind, try_catch, and_then,
    await_mutation, or_default, ret, Alerts_toast, emit.
  simpl. destruct (send r _); reflexivity.
Qed.

(** C3. The shop id submitted is not the one specified. With the
    shop shopA resolved: the variant toggle called without a shop id
    submits no shop id at all; the two inventory handlers called with the
    override shopB submit shopA; called with the product variant id opt9
    they submit opt9 as the shop id. *)
Theorem shop_id_override_not_honoured :
  let r := mkRemote (fun _ => inr []) (fun _ => inr tt) in
  let w := mkWorld None [] in
  let sel := mkSelection (Some "p1") (Some "v1") None (Some "shopA") in
  let v := mkVariant "v1" (Some true) (Some []) in
  let input := mkInventoryInput None None (Some true) (Some true) in
  let override :=
    UseVariantInventory.mkHandlerArgs input None None (Some "shopB") in
  let other :=
    UseVariantInventory.mkHandlerArgs input None (Some "opt9") None in
  submitted (trace (perform None sel (ToggleVariantVisibility v None) r w))
    = [updateProductVariant (Some "v1") None (VariantIsVisible false)] /\
  submitted
    (trace (perform None sel (UpdateVariantInventoryInfo (Some override))
                    r w))
    = [updateSimpleInventory input (Some "p1") (Some "v1") (Some "shopA")] /\
  submitted
    (trace (perform None sel
                    (RecalculateReservedSimpleInventory (Some override)) r w))
    = [recalculateReservedSimpleInventory (Some "p1") (Some "v1")
                                          (Some "shopA")] /\
  submitted
    (trace (perform None sel (UpdateVariantInventoryInfo (Some other)) r w))
    = [updateSimpleInventory input (Some "p1") (Some "opt9") (Some "opt9")] /\
  submitted
    (trace (perform None sel
                    (RecalculateReservedSimpleInventory (Some other)) r w))
    = [recalculateReservedSimpleInventory (Some "p1") (Some "opt9")
                                          (Some "opt9")].
Proof. cbv zeta. repeat split; reflexivity. Qed.

(** The handlers of [useProduct] that write the default as [shopId] do
    submit the caller's shop id when there is one and the resolved shop id
    otherwise. *)
Lemma sibling_handlers_shopId (product : option Product)
    (shopId shopIdArg : option string) fields variantId r w :
  map request_shopId
      (submitted
         (trace (UseProduct.onUpdateProductVariant shopId fields variantId
                                                   shopIdArg r w)))
    = [UseVariantInventory.default_to shopId shopIdArg] /\
  map request_shopId
      (submitted
         (trace (UseProduct.onCreateVariant product shopId (Some "parent")
                                            shopIdArg r w)))
    = [UseVariantInventory.default_to shopId shopIdArg].
Proof.
  unfold UseProduct.onUpdateProductVariant, UseProduct.onCreateVariant,
    bind, try_catch, and_then, await_mutation, or_default, ret,
    Alerts_toast, emit.
  split; destruct shopIdArg; simpl; destruct (send r _); reflexivity.
Qed.

(** ** Visibility toggles *)

(** C8. Both toggles submit the negation of the loaded flag. For a loaded
    product with isVisible = b, toggle-product-visibility submits exactly
    one request, for that product, with isVisible = not b. For a variant
    with isVisible = b, every request toggle-variant-visibility submits
    carries isVisible = not b, and it submits exactly one, for that
    variant, whenever the caller gives a shop id or a shop is resolved. *)
Theorem toggle_submits_negation (b : bool) :
  (forall (p : Product) (shopId : option string) r w,
      product_isVisible p = Some b ->
      submitted (trace (UseProduct.onToggleProductVisibility (Some p) shopId
                                                             r w))
      = [updateProduct (Some (product_id p)) shopId
                       (ProductIsVisible (negb b))]) /\
  (forall (v : Variant) (shopId shopIdArg : option string) r w,
      variant_isVisible v = Some b ->
      let t := trace (UseProduct.onToggleVariantVisibility shopId v shopIdArg
                                                           r w) in
      Forall (fun q => request_isVisible q = Some (negb b)) (submitted t) /\
      (is_Some shopIdArg \/ is_Some shopId ->
       exists s, submitted t
                 = [updateProductVariant (Some (variant_id v)) s
                                         (VariantIsVisible (negb b))])).
Proof.
  split.
  - intros p shopId r w Hb.
    unfold UseProduct.onToggleProductVisibility, bind, try_catch, and_then,
      await_mutation, get_id, ret, Alerts_toast, emit, js_not.
    rewrite Hb. simpl. destruct (send r _); reflexivity.
  - intros v shopId shopIdArg r w Hb. cbv zeta.
    unfold UseProduct.onToggleVariantVisibility, bind, try_catch, and_then,
      await_mutation, or_default, ret, throw, Alerts_toast, emit, js_not.
    rewrite Hb.
    destruct shopIdArg as [sa|], shopId as [sh|]; simpl;
      try (destruct (send r _); simpl;
           (split; [repeat constructor | intros _; eexists; reflexivity])).
    split; [constructor|].
    intros [[x Hx]|[x Hx]]; discriminate.
Qed.

(** A visible product and a hidden variant, toggled with the shop s1
    resolved and, for the variant, the shop s2 given. *)
Lemma toggle_submits_negation_witness :
  let r := mkRemote (fun _ => inr []) (fun _ => inr tt) in
  let w := mkWorld None [] in
  let p := mkProduct "p1" (Some true) [] None [] ∅ in
  let v := mkVariant "v1" (Some false) None in
  submitted (trace (UseProduct.onToggleProductVisibility (Some p) (Some "s1")
                                                         r w))
    = [updateProduct (Some "p1") (Some "s1") (ProductIsVisible false)] /\
  Forall (fun q => request_isVisible q = Some true)
         (submitted (trace (UseProduct.onToggleVariantVisibility
                              (Some "s1") v (Some "s2") r w))).
Proof.
  cbv zeta. split.
  - apply (proj1 (toggle_submits_negation true)). reflexivity.
  - apply (proj2 (toggle_submits_negation false)
             (mkVariant "v1" (Some false) None) (Some "s1") (Some "s2")).
    reflexivity.
Defined.

(** ** The inventory target *)

(** C9, as specified: every inventory mutation payload carries the
    resolved option id. A caller that names a product variant of its own
    gets that one submitted instead. *)
Lemma inventory_target_counterexample :
  let r := mkRemote (fun _ => inr []) (fun _ => inr tt) in
  let w := mkWorld None [] in
  let sel := mkSelection (Some "p1") (Some "v1") (Some "o1") (Some "s1") in
  let input := mkInventoryInput None None (Some true) (Some true) in
  let a := UseVariantInventory.mkHandlerArgs input None (Some "v2") None in
  sel_optionId sel = Some "o1" /\
  map request_productVariantId
      (submitted
         (trace (UseVariantInventory.onUpdateVariantInventoryInfo
                   sel (Some a) r w)))
    = [Some "v2"] /\
  map request_productVariantId
      (submitted
         (trace (UseVariantInventory.onRecalculateReservedSimpleInventory
                   sel (Some a) r w)))
    = [Some "v2"].
Proof. cbv zeta. repeat split; reflexivity. Qed.

(** C9, amended. The product variant id of the inventory query is the
    resolved option id whenever one is present (a non-empty string) and
    the resolved variant id otherwise; so is the one in the payload of
    each inventory mutation called without a product variant id of the
    caller's, and a product variant id the caller gives is submitted as
    given. *)
Theorem inventory_target_default (sel : Selection) :
  let target :=
    if truthy (sel_optionId sel) then sel_optionId sel
    else sel_variantId sel in
  UseVariantInventory.query_productVariantId
    (UseVariantInventory.inventoryQueryVariables sel) = target /\
  forall (a : UseVariantInventory.HandlerArgs) r w,
    let sent :=
      match UseVariantInventory.arg_productVariantId a with
      | Some given => Some given
      | None => target
      end in
    map request_productVariantId
        (submitted
           (trace (UseVariantInventory.onUpdateVariantInventoryInfo
                     sel (Some a) r w)))
      = [sent] /\
    map request_productVariantId
        (submitted
           (trace (UseVariantInventory.onRecalculateReservedSimpleInventory
                     sel (Some a) r w)))
      = [sent].
Proof.
  cbv zeta. split; [reflexivity|].
  intros a r w.
  unfold UseVariantInventory.onUpdateVariantInventoryInfo,
    UseVariantInventory.onRecalculateReservedSimpleInventory,
    UseVariantInventory.productVariantId, UseVariantInventory.default_to,
    UseVariantInventory.destructure, js_or,
    bind, try_catch, and_then, await_mutation, ret, enqueueSnackbar, emit.
  simpl.
  destruct (UseVariantInventory.arg_productVariantId a);
    split; destruct (send r _); reflexivity.
Qed.

(** ** The inventory form *)

(** C10. Whatever inventory info arrives, the effect sets the
    backorder-allowed state to true: a loaded canBackorder of false, of
    true, and a missing one all give true, so a loaded false never shows
    in the initial state. *)
Theorem canBackorder_initialised_true
    (info : VariantInventoryForm.InventoryInfo)
    (st : VariantInventoryForm.FormState) :
  VariantInventoryForm.canBackorder
    (VariantInventoryForm.onInventoryInfo (Some info) st) = Some true.
Proof.
  unfold VariantInventoryForm.onInventoryInfo, js_or. simpl.
  destruct (VariantInventoryForm.info_canBackorder info) as [[|]|];
    reflexivity.
Qed.

(** ** Failures and notifications *)

(** A handler submits at most one request. *)
Lemma perform_submits_at_most_once product sel op r w :
  length (submitted (trace (perform product sel op r w))) <= 1.
Proof. run_handler sel op; lia. Qed.

(** A handler leaves the world as it found it. *)
Lemma perform_keeps_world product sel op r w :
  world (perform product sel op r w) = w.
Proof. run_handler sel op; reflexivity. Qed.

Lemma perform_outcome product sel op r w input (o : Outcome unit) :
  o = perform product sel op r w ->
  In (Mutate input) (trace o) ->
  (send r input = inr tt -> notified_success o) /\
  (forall e, send r input = inl e -> caught_and_notified o).
Proof.
  unfold notified_success, caught_and_notified.
  revert o. run_handler sel op.
  all: intros o -> Hin; cbn in Hin |- *.
  all: repeat match goal with
              | H : _ \/ _ |- _ => destruct H
              | H : False |- _ => destruct H
              | H : Mutate _ = Mutate _ |- _ => injection H as <-
              | H : _ = _ :> Event |- _ => discriminate H
              end.
  all: (split; [intros Hs | intros ? Hs]); try congruence.
  all: repeat split; reflexivity.
Qed.

Lemma perform_reaches product sel op r w (o : Outcome unit) :
  o = perform product sel op r w ->
  if reaches_remote product sel op r
  then exists input,
      submitted (trace o) = [input] /\
      same_mutation op input = true /\
      match send r input with
      | inr _ => notified_success o /\ navigations (trace o) = redirects op
      | inl _ => caught_and_notified o
      end
  else submitted (trace o) = [] /\
       notifications sev_success (trace o) = 0 /\
       navigations (trace o) = 0.
Proof.
  unfold notified_success, caught_and_notified.
  revert o. destruct sel as [? ? ? ?]; destruct op; evaluate.
  all: intros o ->; cbn.
  all: try (repeat split; reflexivity).
  all: eexists; (split; [reflexivity|]); (split; [reflexivity|]);
    match goal with H : send _ _ = _ |- _ => rewrite H end;
    repeat split; reflexivity.
Qed.

(** C5. Every call of a mutation handler, made with the argument object
    the handler destructures, that gets as far as its remote call makes
    exactly one, for the mutation of its operation. If that call succeeds,
    exactly one success notification and no error notification is emitted
    (and archive-product navigates once, nothing else navigates); if it
    fails, exactly one error notification and no success notification is
    emitted and the chained side effect, the navigation of
    archive-product, does not occur. The handler returns normally in both
    cases. A call that does not get as far (the encoder failed, no product
    identifier, shop or argument object to read) makes no remote call,
    emits no success notification and does not navigate. *)
Theorem mutation_outcome_notified_once (product : option Product)
    (sel : Selection) (op : Operation) (r : Remote) (w : World) :
  let o := perform product sel op r w in
  if reaches_remote product sel op r
  then exists input,
      submitted (trace o) = [input] /\
      same_mutation op input = true /\
      match send r input with
      | inr _ => notified_success o /\ navigations (trace o) = redirects op
      | inl _ => caught_and_notified o
      end
  else submitted (trace o) = [] /\
       notifications sev_success (trace o) = 0 /\
       navigations (trace o) = 0.
Proof. cbv zeta. exact (perform_reaches product sel op r w _ eq_refl). Qed.

(** Archiving with a transport that accepts, and toggling a variant with
    one that rejects. *)
Lemma mutation_outcome_notified_once_witness :
  let p := mkProduct "p1" (Some true) [] None [] ∅ in
  let v := mkVariant "v1" (Some true) None in
  let sel := mkSelection (Some "p1") None None (Some "s1") in
  let w := mkWorld (Some p) [] in
  let encode := fun items : list (string * string) =>
                  inr (map snd items) : Err + list string in
  let accepts := mkRemote encode (fun _ => inr tt) in
  let rejects := mkRemote encode (fun _ => inl (Failure "rejected")) in
  (exists input,
      submitted (trace (perform (Some p) sel (ArchiveProduct p "/products")
                                accepts w)) = [input] /\
      notified_success (perform (Some p) sel (ArchiveProduct p "/products")
                                accepts w)) /\
  (exists input,
      submitted (trace (perform (Some p) sel
                                (ToggleVariantVisibility v None)
                                rejects w)) = [input] /\
      caught_and_notified (perform (Some p) sel
                                   (ToggleVariantVisibility v None)
                                   rejects w)).
Proof.
  cbv zeta. split.
  - destruct (mutation_outcome_notified_once
                (Some (mkProduct "p1" (Some true) [] None [] ∅))
                (mkSelection (Some "p1") None None (Some "s1"))
                (ArchiveProduct (mkProduct "p1" (Some true) [] None [] ∅)
                                "/products")
                (mkRemote (fun items => inr (map snd items))
                          (fun _ => inr tt))
                (mkWorld (Some (mkProduct "p1" (Some true) [] None [] ∅))
                         []))
      as (input & Hsub & _ & Hok).
    exists input. split; [exact Hsub | exact (proj1 Hok)].
  - destruct (mutation_outcome_notified_once
                (Some (mkProduct "p1" (Some true) [] None [] ∅))
                (mkSelection (Some "p1") None None (Some "s1"))
                (ToggleVariantVisibility (mkVariant "v1" (Some true) None)
                                         None)
                (mkRemote (fun items => inr (map snd items))
                          (fun _ => inl (Failure "rejected")))
                (mkWorld (Some (mkProduct "p1" (Some true) [] None [] ∅))
                         []))
      as (input & Hsub & _ & Hno).
    exists input. split; [exact Hsub | exact Hno].
Defined.

(** ** Archive and clone: the encoding step *)

(** C1, as specified: a failing encoder is caught and shown once
    and no error leaves the handler. With an encoder that rejects, both
    handlers are rejected with the encoder's error and show nothing. *)
Lemma encoding_failure_counterexample :
  let down := Failure "encoder down" in
  let r := mkRemote (fun _ => inl down) (fun _ => inr tt) in
  let w := mkWorld None [] in
  let p := mkProduct "p1" (Some true) [] None [] ∅ in
  let archive := UseProduct.onArchiveProduct (Some "s1") p "/products" r w in
  let clone := UseProduct.onCloneProduct (Some "s1") "p1" r w in
  (result archive = inl down /\ notifications sev_error (trace archive) = 0) /\
  (result clone = inl down /\ notifications sev_error (trace clone) = 0).
Proof. cbv zeta. repeat split; reflexivity. Qed.

(** C1, amended. In archive-product and clone-product a failure of the
    mutation call is caught at the call site, shown as exactly one error
    notification, and halts the chain (no success notification, no
    navigation) while the handler returns normally; a failure of the
    encoding step, which runs before the try block, is not caught: it
    rejects the handler with the encoder's error, nothing is shown and the
    mutation is not attempted. *)
Theorem archive_clone_failures (shopId : option string) (r : Remote)
    (w : World) :
  (forall (target : Product) (redirectUrl : string),
      let items := [("Product", product_id target)] in
      let o := UseProduct.onArchiveProduct shopId target redirectUrl r w in
      (forall ids e,
          getOpaqueIds r items = inr ids ->
          send r (archiveProducts shopId ids) = inl e ->
          caught_and_notified o /\
          submitted (trace o) = [archiveProducts shopId ids]) /\
      (forall e, getOpaqueIds r items = inl e -> escaped e items o)) /\
  (forall (target : string),
      let items := [("Product", target)] in
      let o := UseProduct.onCloneProduct shopId target r w in
      (forall ids e,
          getOpaqueIds r items = inr ids ->
          send r (cloneProducts shopId ids) = inl e ->
          caught_and_notified o /\
          submitted (trace o) = [cloneProducts shopId ids]) /\
      (forall e, getOpaqueIds r items = inl e -> escaped e items o)).
Proof.
  unfold caught_and_notified, escaped.
  split; intros; cbv zeta; unfold_handlers; cbn;
    (split; [intros ids e Henc Hsend | intros e Henc]);
    rewrite Henc; cbn; try rewrite Hsend; cbn; repeat split; reflexivity.
Qed.

(** A transport that rejects behind an encoder that answers, and an
    encoder that rejects. *)
Lemma archive_clone_failures_witness :
  let p := mkProduct "p1" (Some true) [] None [] ∅ in
  let w := mkWorld (Some p) [] in
  let rejected := Failure "rejected" in
  let down := Failure "encoder down" in
  let rejects := mkRemote (fun items => inr (map snd items))
                          (fun _ => inl rejected) in
  let no_encoder := mkRemote (fun _ => inl down) (fun _ => inr tt) in
  caught_and_notified
    (UseProduct.onArchiveProduct (Some "s1") p "/products" rejects w) /\
  escaped down [("Product", "p1")]
          (UseProduct.onCloneProduct (Some "s1") "p1" no_encoder w).
Proof.
  cbv zeta. split.
  - apply (proj1 (proj1 (archive_clone_failures (Some "s1") _ _) _ "/products")
             ["p1"] (Failure "rejected")); reflexivity.
  - apply (proj2 (proj2 (archive_clone_failures (Some "s1") _ _) "p1"));
      reflexivity.
Defined.

(** A successful archive does navigate: the chain that a failure halts is
    there to be halted. *)
Lemma archive_success_navigates (shopId : option string) target url r w ids :
  getOpaqueIds r [("Product", product_id target)] = inr ids ->
  send r (archiveProducts shopId ids) = inr tt ->
  trace (UseProduct.onArchiveProduct shopId target url r w)
  = [Encode [("Product", product_id target)];
     Mutate (archiveProducts shopId ids);
     Toast "productDetailEdit.archiveProductsSuccess" None sev_success;
     Push url].
Proof.
  intros Henc Hsend. unfold_handlers. cbn. rewrite Henc. cbn.
  rewrite Hsend. reflexivity.
Qed.

(** ** What is written to the cached product *)

Lemma with_props_same (p : Product) :
  UseProduct.with_props p (product_props p) = p.
Proof. now destruct p. Qed.

Lemma forEach_set_props (entries : list SocialMetadata) r w :
  UseProduct.forEach
    (fun entry =>
       UseProduct.set_product_prop (service entry ++ "Msg") (message entry))
    entries r w
  = mkOutcome
      (mkWorld
         ((fun p => UseProduct.with_props p
                      (socialProps entries (product_props p))) <$> cache w)
         (inflight w))
      [] (inr tt).
Proof.
  revert w. induction entries as [|entry rest IH]; intros w.
  - cbn. unfold ret. f_equal.
    destruct w as [[p|] fl]; cbn; [|reflexivity].
    now rewrite with_props_same.
  - cbn [UseProduct.forEach]. unfold bind at 1.
    cbn [UseProduct.set_product_prop result].
    unfold and_then. rewrite IH. cbn.
    destruct (cache w) as [p|]; reflexivity.
Qed.

Lemma convertSocialMetadata_world r w :
  UseProduct.convertSocialMetadata (cache w) r w
  = mkOutcome (mkWorld (converted <$> cache w) (inflight w)) [] (inr tt).
Proof.
  unfold UseProduct.convertSocialMetadata, converted.
  destruct w as [[p|] fl]; cbn [cache]; [|reflexivity].
  destruct (product_socialMetadata p) as [entries|] eqn:Hsm.
  - rewrite forEach_set_props. cbn. now rewrite Hsm.
  - cbn. rewrite Hsm. cbn. unfold ret. now rewrite with_props_same.
Qed.

(** Locating reads: it changes nothing and calls nothing. *)
Lemma locate_reads_only product variantId optionId r w :
  locate product variantId optionId r w
  = mkOutcome w [] (result (locate product variantId optionId r w)).
Proof.
  unfold locate, locate_option, bind, and_then, ret, throw.
  destruct product, variantId, optionId; cbn; try reflexivity.
  repeat (match goal with
          | |- context [match ?x with _ => _ end] => destruct x
          end; cbn; try reflexivity).
Qed.

(** A render pass of [useProduct], step by step: it stops at the locator
    if that throws, and otherwise converts the social metadata on the
    cached object and returns that object. *)
Lemma useProduct_outcome args routeParams currentShopId r w :
  let sel := resolve routeParams args currentShopId in
  UseProduct.useProduct args routeParams currentShopId r w
  = match result (locate (cache w) (sel_variantId sel) (sel_optionId sel)
                         r w) with
    | inl e => mkOutcome w [] (inl e)
    | inr found =>
        mkOutcome (mkWorld (converted <$> cache w) (inflight w)) []
                  (inr {| UseProduct.res_option := snd found;
                          UseProduct.res_product := converted <$> cache w;
                          UseProduct.res_refetchProduct :=
                            refetchQuery ProductQuery;
                          UseProduct.res_shopId := sel_shopId sel;
                          UseProduct.res_variant := fst found |})
    end.
Proof.
  cbv zeta. unfold UseProduct.useProduct.
  rewrite (bind_silent read_product _ r w w (cache w)) by reflexivity.
  pose proof (locate_reads_only (cache w)
                (sel_variantId (resolve routeParams args currentShopId))
                (sel_optionId (resolve routeParams args currentShopId))
                r w) as Hloc.
  destruct (result (locate _ _ _ r w)) as [e|found].
  - now rewrite (bind_silent_throw _ _ r w w e Hloc).
  - rewrite (bind_silent _ _ r w w found Hloc).
    rewrite (bind_silent _ _ r w _ tt (convertSocialMetadata_world r w)).
    reflexivity.
Qed.

Lemma useVariantInventory_world args routeParams currentShopId r w :
  world (UseVariantInventory.useVariantInventory args routeParams
                                                 currentShopId r w) = w.
Proof.
  unfold UseVariantInventory.useVariantInventory.
  rewrite (bind_silent read_product _ r w w (cache w)) by reflexivity.
  pose proof (locate_reads_only (cache w)
                (sel_variantId (resolve routeParams args currentShopId))
                (sel_optionId (resolve routeParams args currentShopId))
                r w) as Hloc.
  destruct (result (locate _ _ _ r w)) as [e|found].
  - now rewrite (bind_silent_throw _ _ r w w e Hloc).
  - now rewrite (bind_silent _ _ r w w found Hloc).
Qed.

Lemma socialProps_other (entries : list SocialMetadata)
    (props : gmap string string) (key : string) :
  (forall entry, In entry entries -> service entry ++ "Msg" <> key) ->
  socialProps entries props !! key = props !! key.
Proof.
  unfold socialProps. revert props.
  induction entries as [|entry rest IH]; intros props Hkey.
  - reflexivity.
  - cbn [foldl]. rewrite IH by (intros e He; apply Hkey; now right).
    apply lookup_insert_ne. apply Hkey. now left.
Qed.

(** C4, as specified: nothing in this layer writes to the cached
    product. A render pass of [useProduct] over a product with one social
    metadata entry leaves the cached product with a property it did not
    have. *)
Lemma render_writes_cached_product :
  let p := mkProduct "p1" (Some true) [] (Some [mkSocial "twitter" "hi"])
                     [] ∅ in
  let w := mkWorld (Some p) [] in
  let r := mkRemote (fun _ => inr []) (fun _ => inr tt) in
  let o := UseProduct.useProduct (mkHookArgs (Some "p1") None None)
                                 (mkRouteParams None None None None)
                                 (Some "s1") r w in
  product_props p !! "twitterMsg" = None /\
  exists p', cache (world o) = Some p' /\
             product_props p' !! "twitterMsg" = Some "hi".
Proof.
  cbv zeta. split; [apply lookup_empty|].
  eexists. split; [reflexivity|]. cbn. apply lookup_insert_eq.
Qed.

(** C4, amended. No mutation handler, no render pass of useVariantInventory
    and no issuing of a refetch changes the cached product. The render
    pass of useProduct does write to it: unless the locator throws first,
    it sets on the cached product object, for each entry of the product's
    social metadata, the property named by the service followed by Msg to
    the entry's message, and returns that same object; every other
    property, and the identifier, visibility flag, tags, social metadata
    and variants with their options, stay as loaded. *)
Theorem cached_product_written_only_by_render :
  (forall product sel op r w, world (perform product sel op r w) = w) /\
  (forall args routeParams currentShopId r w,
      world (UseVariantInventory.useVariantInventory args routeParams
                                                     currentShopId r w)
      = w) /\
  (forall r w, cache (world (UseVariantInventory.refetch r w)) = cache w) /\
  (forall args routeParams currentShopId r w,
      let o := UseProduct.useProduct args routeParams currentShopId r w in
      inflight (world o) = inflight w /\
      match result o with
      | inr res =>
          cache (world o) = converted <$> cache w /\
          UseProduct.res_product res = cache (world o)
      | inl _ => cache (world o) = cache w
      end) /\
  (forall p,
      product_id (converted p) = product_id p /\
      product_isVisible (converted p) = product_isVisible p /\
      product_tags (converted p) = product_tags p /\
      product_socialMetadata (converted p) = product_socialMetadata p /\
      product_variants (converted p) = product_variants p /\
      forall key,
        (forall entry,
            In entry (default [] (product_socialMetadata p)) ->
            service entry ++ "Msg" <> key) ->
        product_props (converted p) !! key = product_props p !! key).
Proof.
  split; [apply perform_keeps_world|].
  split; [apply useVariantInventory_world|].
  split; [reflexivity|].
  split.
  - intros args routeParams currentShopId r w. cbv zeta.
    rewrite useProduct_outcome. cbv zeta.
    destruct (result (locate _ _ _ r w)); cbn; auto.
  - intros p. repeat split. intros key Hkey.
    unfold converted. cbn. now apply socialProps_other.
Qed.

(** Archiving leaves the cached product alone; rendering it with a
    twitter entry leaves its title alone. *)
Lemma cached_product_written_only_by_render_witness :
  let p := mkProduct "p1" (Some true) [] (Some [mkSocial "twitter" "hi"])
                     [] {["title" := "Shirt"]} in
  let w := mkWorld (Some p) [] in
  let r := mkRemote (fun items => inr (map snd items)) (fun _ => inr tt) in
  let sel := mkSelection (Some "p1") None None (Some "s1") in
  world (perform (Some p) sel (ArchiveProduct p "/products") r w) = w /\
  product_props (converted p) !! "title" = product_props p !! "title".
Proof.
  cbv zeta. split.
  - apply (proj1 cached_product_written_only_by_render).
  - apply (proj2 (proj2 (proj2 (proj2 cached_product_written_only_by_render)))).
    cbn. intros entry [<-|[]]. discriminate.
Defined.

(** ** Refetch *)

Lemma in_flight_last (q : Query) (pending : list Query) (c : option Product)
    (rest : list Query) :
  in_flight q (mkWorld c (pending ++ q :: rest)) = true.
Proof.
  unfold in_flight. cbn. rewrite existsb_app. cbn.
  replace (query_eqb q q) with true by now destruct q.
  now rewrite orb_true_r.
Qed.

(** C6, as specified: the combined refetch does not resolve before
    both fetches have completed. What it returns is no promise, so a
    caller that awaits it resumes while both fetches are in flight. *)
Lemma combined_refetch_counterexample :
  let r := mkRemote (fun _ => inr []) (fun _ => inr tt) in
  let o := UseVariantInventory.refetch r (mkWorld None []) in
  exists v, result o = inr v /\
            resolved v (world o) = true /\
            in_flight InventoryQuery (world o) = true /\
            in_flight ProductQuery (world o) = true.
Proof. cbv zeta. exists Undefined. repeat split; reflexivity. Qed.

(** C6, amended. The refetchProduct that useProduct exposes is the query
    client's own refetch of the product query: it issues the fetch and
    returns its promise, which resolves only once that fetch is no longer
    in flight. The combined refetch of useVariantInventory issues the
    inventory refetch and then the product refetch and returns undefined
    at once, without waiting for either: both fetches are still in flight
    when a caller awaiting it resumes. *)
Theorem refetch_resolution (r : Remote) (w : World) :
  (forall args routeParams currentShopId res,
      result (UseProduct.useProduct args routeParams currentShopId r w)
      = inr res ->
      forall w1,
        let o := UseProduct.res_refetchProduct res r w1 in
        result o = inr (PromiseOf ProductQuery) /\
        trace o = [Refetch ProductQuery] /\
        in_flight ProductQuery (world o) = true /\
        resolved (PromiseOf ProductQuery) (world o) = false) /\
  (forall args routeParams currentShopId res,
      result (UseVariantInventory.useVariantInventory
                args routeParams currentShopId r w)
      = inr res ->
      UseVariantInventory.res_refetch res = UseVariantInventory.refetch) /\
  (let o := UseVariantInventory.refetch r w in
   result o = inr Undefined /\
   trace o = [Refetch InventoryQuery; Refetch ProductQuery] /\
   inflight (world o)
   = (inflight w ++ [InventoryQuery; ProductQuery])%list /\
   in_flight InventoryQuery (world o) = true /\
   in_flight ProductQuery (world o) = true /\
   resolved Undefined (world o) = true).
Proof.
  split; [|split].
  - intros args routeParams currentShopId res Hres w1. cbv zeta.
    rewrite useProduct_outcome in Hres. cbv zeta in Hres.
    destruct (result (locate _ _ _ r w)); [discriminate|].
    injection Hres as <-. cbn [UseProduct.res_refetchProduct].
    unfold refetchQuery, resolved. cbn [result trace world].
    rewrite (in_flight_last ProductQuery (inflight w1) (cache w1) []).
    repeat split.
  - intros args routeParams currentShopId res Hres.
    unfold UseVariantInventory.useVariantInventory in Hres.
    rewrite (bind_silent read_product _ r w w (cache w)) in Hres
      by reflexivity.
    pose proof (locate_reads_only (cache w)
                  (sel_variantId (resolve routeParams args currentShopId))
                  (sel_optionId (resolve routeParams args currentShopId))
                  r w) as Hloc.
    destruct (result (locate _ _ _ r w)) as [e|found].
    + rewrite (bind_silent_throw _ _ r w w e Hloc) in Hres. discriminate.
    + rewrite (bind_silent _ _ r w w found Hloc) in Hres.
      injection Hres as <-. reflexivity.
  - cbv zeta. unfold UseVariantInventory.refetch, refetchQuery, bind,
      and_then, ret. cbn [result trace world cache inflight app].
    rewrite <- app_assoc. cbn [app].
    rewrite (in_flight_last InventoryQuery (inflight w) (cache w)
                            [ProductQuery]).
    pose proof (in_flight_last ProductQuery (inflight w ++ [InventoryQuery])
                               (cache w) []) as Hp.
    rewrite <- app_assoc in Hp. cbn [app] in Hp. rewrite Hp.
    repeat split.
Qed.

(** A render pass over an empty cache, and the refetch it exposes. *)
Lemma refetch_resolution_witness :
  let r := mkRemote (fun _ => inr []) (fun _ => inr tt) in
  let w := mkWorld None [] in
  let o := refetchQuery ProductQuery r w in
  result o = inr (PromiseOf ProductQuery) /\
  trace o = [Refetch ProductQuery] /\
  in_flight ProductQuery (world o) = true /\
  resolved (PromiseOf ProductQuery) (world o) = false.
Proof.
  cbv zeta.
  apply (proj1 (refetch_resolution
                  (mkRemote (fun _ => inr []) (fun _ => inr tt))
                  (mkWorld None []))
           (mkHookArgs None None None) (mkRouteParams None None None None)
           None
           (UseProduct.mkResult None None (refetchQuery ProductQuery) None
                                None)).
  reflexivity.
Defined.

(** * Further properties of the handlers *)

Lemma perform_shape product sel op r w :
  Shape r w (perform product sel op r w).
Proof. run_handler sel op; find_shape. Qed.

(** X1. A call of a handler that rejects has submitted no request, shown
    no notification and not navigated; a call that returns has shown
    exactly one notification, submitted at most one request, and has
    navigated at most once and only after a success notification. *)
Theorem handler_shows_once_or_rejects (product : option Product)
    (sel : Selection) (op : Operation) (r : Remote) (w : World) :
  let o := perform product sel op r w in
  match result o with
  | inl _ =>
      shown (trace o) = 0 /\ submitted (trace o) = [] /\
      navigations (trace o) = 0
  | inr _ =>
      shown (trace o) = 1 /\ length (submitted (trace o)) <= 1 /\
      navigations (trace o) <= notifications sev_success (trace o)
  end.
Proof.
  cbv zeta. pose proof (perform_shape product sel op r w) as H.
  by_shape H; cbn; repeat split; lia.
Qed.

Lemma perform_push product sel op r w url (o : Outcome unit) :
  o = perform product sel op r w ->
  In (Push url) (trace o) ->
  exists target ids,
    op = ArchiveProduct target url /\
    getOpaqueIds r [("Product", product_id target)] = inr ids /\
    send r (archiveProducts (sel_shopId sel) ids) = inr tt.
Proof.
  revert o. destruct sel as [? ? ? ?]; destruct op; evaluate.
  all: intros o -> Hin; cbn in Hin.
  all: repeat match goal with
              | H : _ \/ _ |- _ => destruct H
              | H : False |- _ => destruct H
              | H : Push _ = Push _ |- _ => injection H as <-
              | H : _ = _ :> Event |- _ => discriminate H
              end.
  eexists _, _. repeat split; eassumption.
Qed.

(** X2. Navigation happens in one case only: a handler call navigates to
    a URL only if it is archive-product called with that URL as redirect
    target, the encoder answered and the archive mutation was accepted. *)
Theorem only_successful_archive_navigates (product : option Product)
    (sel : Selection) (op : Operation) (r : Remote) (w : World)
    (url : string) :
  In (Push url) (trace (perform product sel op r w)) ->
  exists target ids,
    op = ArchiveProduct target url /\
    getOpaqueIds r [("Product", product_id target)] = inr ids /\
    send r (archiveProducts (sel_shopId sel) ids) = inr tt.
Proof. exact (perform_push product sel op r w url _ eq_refl). Qed.

Lemma only_successful_archive_navigates_witness :
  let p := mkProduct "p1" (Some true) [] None [] ∅ in
  let sel := mkSelection (Some "p1") None None (Some "s1") in
  let r := mkRemote (fun items => inr (map snd items)) (fun _ => inr tt) in
  exists target ids,
    ArchiveProduct p "/products" = ArchiveProduct target "/products" /\
    getOpaqueIds r [("Product", product_id target)] = inr ids /\
    send r (archiveProducts (sel_shopId sel) ids) = inr tt.
Proof.
  cbv zeta.
  apply (only_successful_archive_navigates None _ _ _ (mkWorld None [])).
  cbn. right. right. right. left. reflexivity.
Defined.

(** X3. When the encoder answers and the mutation is accepted, archive
    runs encode, mutate, success notification and navigation to the
    redirect target, in that order and nothing else; clone runs encode,
    mutate and success notification and does not navigate. *)
Theorem successful_archive_and_clone (shopId : option string)
    (r : Remote) (w : World) :
  (forall (target : Product) (redirectUrl : string) ids,
      getOpaqueIds r [("Product", product_id target)] = inr ids ->
      send r (archiveProducts shopId ids) = inr tt ->
      trace (UseProduct.onArchiveProduct shopId target redirectUrl r w)
      = [Encode [("Product", product_id target)];
         Mutate (archiveProducts shopId ids);
         Toast "productDetailEdit.archiveProductsSuccess" None sev_success;
         Push redirectUrl]) /\
  (forall (target : string) ids,
      getOpaqueIds r [("Product", target)] = inr ids ->
      send r (cloneProducts shopId ids) = inr tt ->
      trace (UseProduct.onCloneProduct shopId target r w)
      = [Encode [("Product", target)];
         Mutate (cloneProducts shopId ids);
         Toast "productDetailEdit.cloneProductSuccess" None sev_success]).
Proof.
  split; intros; unfold_handlers; cbn;
    match goal with H : getOpaqueIds _ _ = _ |- _ => rewrite H end; cbn;
    match goal with H : send _ _ = _ |- _ => rewrite H end; reflexivity.
Qed.

Lemma successful_archive_and_clone_witness :
  let p := mkProduct "p1" (Some true) [] None [] ∅ in
  let r := mkRemote (fun items => inr (map snd items)) (fun _ => inr tt) in
  trace (UseProduct.onArchiveProduct (Some "s1") p "/products" r
                                     (mkWorld None []))
  = [Encode [("Product", "p1")];
     Mutate (archiveProducts (Some "s1") ["p1"]);
     Toast "productDetailEdit.archiveProductsSuccess" None sev_success;
     Push "/products"].
Proof.
  cbv zeta.
  apply (proj1 (successful_archive_and_clone
                  (Some "s1")
                  (mkRemote (fun items => inr (map snd items))
                            (fun _ => inr tt))
                  (mkWorld None []))
           (mkProduct "p1" (Some true) [] None [] ∅) "/products" ["p1"]);
    reflexivity.
Defined.

(** X4. Archive-product and clone-product encode first and submit what
    the encoder answered: the trace of every call starts with the encoding
    of the target, and the request submitted is the one for the
    identifiers the encoder returned, under the resolved shop; when the
    encoder fails no request is submitted. *)
Theorem encoded_ids_are_submitted (shopId : option string) (r : Remote)
    (w : World) :
  (forall (target : Product) (redirectUrl : string),
      let items := [("Product", product_id target)] in
      let o := UseProduct.onArchiveProduct shopId target redirectUrl r w in
      hd_error (trace o) = Some (Encode items) /\
      submitted (trace o)
      = match getOpaqueIds r items with
        | inr ids => [archiveProducts shopId ids]
        | inl _ => []
        end) /\
  (forall (target : string),
      let items := [("Product", target)] in
      let o := UseProduct.onCloneProduct shopId target r w in
      hd_error (trace o) = Some (Encode items) /\
      submitted (trace o)
      = match getOpaqueIds r items with
        | inr ids => [cloneProducts shopId ids]
        | inl _ => []
        end).
Proof.
  split; [intros target redirectUrl | intros target];
    cbv zeta; unfold_handlers; cbn;
    (destruct (getOpaqueIds r _); cbn; [now split|]);
    destruct (send r _); cbn; now split.
Qed.

(** X5. The handlers that default to the identifier of the loaded
    product, when no product is loaded: create-variant and update-product
    reject with a TypeError exactly when the caller gives no product
    identifier either; delete-product-tag rejects exactly when the caller
    leaves out the product or the product identifier, giving one of the
    two does not help; toggle-product-visibility, which reads the product
    inside its try block, returns normally, submits nothing and shows one
    error notification. *)
Theorem handlers_without_loaded_product (shopId : option string)
    (r : Remote) (w : World) :
  (forall product parentId shopIdArg,
      result (UseProduct.onCreateVariant product shopId parentId shopIdArg
                                         r w) = inl TypeError
      <-> product = None /\ parentId = None) /\
  (forall product fields productIdArg shopIdArg,
      result (UseProduct.onUpdateProduct product shopId fields productIdArg
                                         shopIdArg r w) = inl TypeError
      <-> product = None /\ productIdArg = None) /\
  (forall product tag productArg productIdArg shopIdArg,
      result (UseProduct.handleDeleteProductTag
                product shopId tag productArg productIdArg shopIdArg r w)
      = inl TypeError
      <-> product = None /\ (productArg = None \/ productIdArg = None)) /\
  (let o := UseProduct.onToggleProductVisibility None shopId r w in
   result o = inr tt /\ submitted (trace o) = [] /\
   notifications sev_error (trace o) = 1).
Proof.
  split; [|split; [|split]].
  - (intros [p|] [pid|] [s|]; evaluate; intuition congruence).
  - (intros [p|] fields [pid|] [s|]; evaluate; intuition congruence).
  - (intros [p|] tag [p'|] [pid|] [s|]; evaluate; intuition congruence).
  - cbv zeta. repeat split.
Qed.

Lemma handlers_without_loaded_product_witness :
  let r := mkRemote (fun _ => inr []) (fun _ => inr tt) in
  let w := mkWorld None [] in
  result (UseProduct.onCreateVariant None (Some "s1") None None r w)
  = inl TypeError.
Proof.
  cbv zeta.
  apply (proj1 (handlers_without_loaded_product (Some "s1") _ _)).
  now split.
Defined.

(** ** Deleting a tag *)

Lemma filter_sublist {A} (f : A -> bool) (l : list A) :
  sublist (List.filter f l) l.
Proof.
  induction l as [|x l IH]; cbn; [constructor|].
  destruct (f x); now constructor.
Qed.

Lemma filter_all {A} (f : A -> bool) (l : list A) :
  (forall x, In x l -> f x = true) -> List.filter f l = l.
Proof.
  induction l as [|x l IH]; cbn; intros H; [reflexivity|].
  rewrite (H x) by now left. f_equal. apply IH. intros y Hy. apply H.
  now right.
Qed.

(** The identifiers left after [tag] is taken out of [tags]. *)
Lemma remaining_tag_ids (tag : Tag) (tags : list Tag) :
  let ids :=
    map tag_id
        (List.filter (fun t => negb (String.eqb (tag_id t) (tag_id tag)))
                     tags) in
  ~ In (tag_id tag) ids /\
  (forall t, In t tags -> tag_id t <> tag_id tag -> In (tag_id t) ids) /\
  sublist ids (map tag_id tags) /\
  (~ In (tag_id tag) (map tag_id tags) -> ids = map tag_id tags).
Proof.
  cbv zeta. repeat split.
  - intros Hin. apply in_map_iff in Hin as (t & Hid & Ht).
    apply filter_In in Ht as [_ Hne].
    apply negb_true_iff, String.eqb_neq in Hne. congruence.
  - intros t Ht Hne. apply in_map. apply filter_In. split; [exact Ht|].
    now apply negb_true_iff, String.eqb_neq.
  - apply (fmap_sublist tag_id), filter_sublist.
  - intros Hno. f_equal. apply filter_all. intros t Ht.
    apply negb_true_iff, String.eqb_neq. intros Heq. apply Hno.
    rewrite <- Heq. now apply in_map.
Qed.

(** X6. Delete-product-tag, with a product loaded, submits exactly one
    update-product request whose tag identifiers are those of the source
    product (the one the caller passes, else the loaded one) without the
    deleted tag: the deleted identifier is gone, every other identifier is
    kept, in the original order, and a tag the product does not carry
    leaves the list whole. The product identifier of the request is the
    caller's, else that of the loaded product, also when the tags come
    from a product the caller passed. *)
Theorem deleted_tag_is_filtered_out (loaded : Product)
    (shopId : option string) (tag : Tag) (productArg : option Product)
    (productIdArg shopIdArg : option string) (r : Remote) (w : World) :
  let source := default loaded productArg in
  let o := UseProduct.handleDeleteProductTag
             (Some loaded) shopId tag productArg productIdArg shopIdArg
             r w in
  exists ids,
    submitted (trace o)
    = [updateProduct (Some (default (product_id loaded) productIdArg))
                     (UseVariantInventory.default_to shopId shopIdArg)
                     (ProductTagIds ids)] /\
    ~ In (tag_id tag) ids /\
    (forall t, In t (product_tags source) -> tag_id t <> tag_id tag ->
               In (tag_id t) ids) /\
    sublist ids (map tag_id (product_tags source)) /\
    (~ In (tag_id tag) (map tag_id (product_tags source)) ->
     ids = map tag_id (product_tags source)).
Proof.
  cbv zeta.
  exists (map tag_id
            (List.filter (fun t => negb (String.eqb (tag_id t) (tag_id tag)))
                         (product_tags (default loaded productArg)))).
  split; [|apply remaining_tag_ids].
  destruct productArg, productIdArg, shopIdArg;
    unfold_handlers; cbn -[List.filter];
    destruct (send r _); reflexivity.
Qed.

Lemma deleted_tag_is_filtered_out_witness :
  let p := mkProduct "p1" None [mkTag "t1"; mkTag "t2"] None [] ∅ in
  let r := mkRemote (fun _ => inr []) (fun _ => inr tt) in
  exists ids,
    submitted
      (trace (UseProduct.handleDeleteProductTag
                (Some p) (Some "s1") (mkTag "t1") None None None r
                (mkWorld (Some p) [])))
    = [updateProduct (Some "p1") (Some "s1") (ProductTagIds ids)] /\
    ~ In "t1" ids /\ In "t2" ids.
Proof.
  cbv zeta.
  destruct (deleted_tag_is_filtered_out
              (mkProduct "p1" None [mkTag "t1"; mkTag "t2"] None [] ∅)
              (Some "s1") (mkTag "t1") None None None
              (mkRemote (fun _ => inr []) (fun _ => inr tt))
              (mkWorld
                 (Some (mkProduct "p1" None [mkTag "t1"; mkTag "t2"] None
                                  [] ∅)) []))
    as (ids & Hsub & Hgone & Hkept & _).
  exists ids. split; [exact Hsub|]. split; [exact Hgone|].
  apply (Hkept (mkTag "t2")); [cbn; tauto | discriminate].
Defined.

(** ** The shop of the other handlers *)

(** X7. Create-variant, update-product, delete-product-tag and
    update-product-variant honour a shop override: every request one of
    them submits carries the caller's shop identifier when one is given
    and the resolved shop identifier otherwise. *)
Theorem shop_override_honoured (product : option Product)
    (shopId shopIdArg : option string) (r : Remote) (w : World) :
  let honoured (o : Outcome unit) :=
    Forall (fun q => request_shopId q
                     = UseVariantInventory.default_to shopId shopIdArg)
           (submitted (trace o)) in
  (forall parentId,
      honoured (UseProduct.onCreateVariant product shopId parentId
                                           shopIdArg r w)) /\
  (forall fields productIdArg,
      honoured (UseProduct.onUpdateProduct product shopId fields
                                           productIdArg shopIdArg r w)) /\
  (forall tag productArg productIdArg,
      honoured (UseProduct.handleDeleteProductTag
                  product shopId tag productArg productIdArg shopIdArg
                  r w)) /\
  (forall fields variantId,
      honoured (UseProduct.onUpdateProductVariant shopId fields variantId
                                                  shopIdArg r w)).
Proof.
  cbv zeta. repeat split; intros;
    destruct product, shopIdArg;
    evaluate; repeat constructor.
Qed.

(** ** The inventory handlers and the form *)

(** X8. Either inventory handler called without an argument object
    rejects with a TypeError before anything else happens: nothing is
    submitted and nothing is shown. The Recalculate button of the form
    calls its handler that way, so a click on it never reaches the
    remote API. *)
Theorem recalculate_click_submits_nothing (sel : Selection) (r : Remote)
    (w : World) :
  let silent (o : Outcome unit) :=
    result o = inl TypeError /\ trace o = [] /\ world o = w in
  silent (UseVariantInventory.onUpdateVariantInventoryInfo sel None r w) /\
  silent (UseVariantInventory.onRecalculateReservedSimpleInventory
            sel None r w) /\
  silent (VariantInventoryForm.onRecalculateClick sel r w).
Proof. cbv zeta. repeat split. Qed.

(** X9. Update-product-variant and the two inventory handlers reject in
    one case only, a call without an argument object, and then with a
    TypeError and before anything is submitted or shown. Called with an
    argument object, whatever its fields and whatever the remote answers,
    each submits exactly one request, shows exactly one notification and
    returns normally. *)
Theorem handlers_that_always_settle (sel : Selection) (r : Remote)
    (w : World) :
  let settled (o : Outcome unit) :=
    result o = inr tt /\ length (submitted (trace o)) = 1 /\
    shown (trace o) = 1 in
  let rejected (o : Outcome unit) :=
    result o = inl TypeError /\ trace o = [] in
  ((forall a,
       settled (UseProduct.callOnUpdateProductVariant
                  (sel_shopId sel) (Some a) r w)) /\
   rejected (UseProduct.callOnUpdateProductVariant
               (sel_shopId sel) None r w)) /\
  ((forall a,
       settled (UseVariantInventory.onUpdateVariantInventoryInfo
                  sel (Some a) r w)) /\
   rejected (UseVariantInventory.onUpdateVariantInventoryInfo
               sel None r w)) /\
  ((forall a,
       settled (UseVariantInventory.onRecalculateReservedSimpleInventory
                  sel (Some a) r w)) /\
   rejected (UseVariantInventory.onRecalculateReservedSimpleInventory
               sel None r w)).
Proof.
  cbv zeta. repeat split; try intros a;
    try (destruct a as [fields variantId [s|]]);
    unfold UseProduct.callOnUpdateProductVariant; evaluate; reflexivity.
Qed.

(** X10. Once inventory info has arrived, whatever it holds, the backorder
    checkbox is rendered checked and the enabled state is a boolean, true
    exactly when the loaded flag is true; without inventory info the
    effect leaves the state as it is. *)
Theorem form_state_after_load (st : VariantInventoryForm.FormState) :
  (forall info,
      let st' := VariantInventoryForm.onInventoryInfo (Some info) st in
      VariantInventoryForm.backorderChecked st' = Some true /\
      VariantInventoryForm.isEnabled st'
      = Some (truthy (VariantInventoryForm.info_isEnabled info))) /\
  VariantInventoryForm.onInventoryInfo None st = st.
Proof.
  split; [|reflexivity]. intros info. cbv zeta.
  unfold VariantInventoryForm.onInventoryInfo,
    VariantInventoryForm.backorderChecked, js_or. cbn.
  destruct (VariantInventoryForm.info_isEnabled info) as [[|]|],
    (VariantInventoryForm.info_canBackorder info) as [[|]|]; now split.
Qed.

(** X11. Saving the form: whatever the form data, the schema cleaner and
    the answer of the remote, the submit handler returns with the submit
    flag lowered and the flags unchanged, shows exactly one notification,
    and submits exactly one update-inventory request, for the resolved
    product, target and shop, whose input is the cleaned form data with
    the two flags taken from the checkbox state and not from the form
    data. Saved right after inventory info has arrived, the input handed
    to the cleaner therefore has canBackorder true, whatever was
    loaded. *)
Theorem submit_sends_checkbox_state
    (clean : VariantInventoryForm.InventoryInfo -> InventoryInput)
    (sel : Selection) (formData : VariantInventoryForm.InventoryInfo)
    (c : VariantInventoryForm.Component) (r : Remote) (w : World) :
  let sent (c0 : VariantInventoryForm.Component) :=
    updateSimpleInventory
      (clean (VariantInventoryForm.withFlags
                formData (VariantInventoryForm.state c0)))
      (sel_productId sel) (UseVariantInventory.productVariantId sel)
      (sel_shopId sel) in
  let o := VariantInventoryForm.onSubmit clean sel formData c r w in
  result o
  = inr (VariantInventoryForm.mkComponent (VariantInventoryForm.state c)
                                          false) /\
  submitted (trace o) = [sent c] /\
  shown (trace o) = 1 /\
  VariantInventoryForm.info_isEnabled
    (VariantInventoryForm.withFlags formData (VariantInventoryForm.state c))
  = VariantInventoryForm.isEnabled (VariantInventoryForm.state c) /\
  VariantInventoryForm.info_canBackorder
    (VariantInventoryForm.withFlags formData (VariantInventoryForm.state c))
  = VariantInventoryForm.canBackorder (VariantInventoryForm.state c) /\
  forall info,
    VariantInventoryForm.info_canBackorder
      (VariantInventoryForm.withFlags
         formData
         (VariantInventoryForm.state
            (VariantInventoryForm.inventoryInfoArrived (Some info) c)))
    = Some true.
Proof.
  cbv zeta. repeat split.
  1-3: unfold VariantInventoryForm.onSubmit; evaluate; reflexivity.
  intros info. cbn. unfold js_or.
  destruct (VariantInventoryForm.info_canBackorder info) as [[|]|];
    reflexivity.
Qed.

(** X12. For integer counts of magnitude at most 2^52, which the
    doubles of the script hold and subtract exactly, the figure of stock
    available to sell is never negative; with both counts loaded it is
    the stock less the reserved count when that is not negative and zero
    otherwise; a missing count stands for zero. *)
Theorem available_to_sell_bounds (stock reserved : option Z) :
  exact_count stock -> exact_count reserved ->
  (0 <= VariantInventoryForm.inventoryAvailableToSell stock reserved
   <= 2 ^ 53)%Z /\
  (forall s v, stock = Some s -> reserved = Some v ->
               VariantInventoryForm.inventoryAvailableToSell stock reserved
               = if (v <=? s)%Z then (s - v)%Z else 0%Z) /\
  (forall s, stock = Some s -> reserved = None ->
             VariantInventoryForm.inventoryAvailableToSell stock reserved
             = Z.max s 0) /\
  (forall v, stock = None -> reserved = Some v ->
             VariantInventoryForm.inventoryAvailableToSell stock reserved
             = Z.max (- v) 0).
Proof.
  intros Hs Hv.
  assert (Hz : forall z, VariantInventoryForm.or_zero (Some z) = z).
  { intros z. unfold VariantInventoryForm.or_zero, js_or, truthy,
      VariantInventoryForm.truthy_number.
    destruct (Z.eqb_spec z 0); cbn; congruence. }
  unfold VariantInventoryForm.inventoryAvailableToSell.
  split.
  - change (2 ^ 53)%Z with (2 ^ 52 + 2 ^ 52)%Z.
    destruct stock as [s|], reserved as [v|]; cbn in Hs, Hv;
      rewrite ?Hz;
      try change (VariantInventoryForm.or_zero None) with 0%Z; lia.
  - repeat split; intros; subst; rewrite ?Hz;
      try change (VariantInventoryForm.or_zero None) with 0%Z;
      try destruct (Z.leb_spec v s); lia.
Qed.

Lemma available_to_sell_bounds_witness :
  VariantInventoryForm.inventoryAvailableToSell (Some 3%Z) (Some 5%Z) = 0%Z.
Proof.
  assert (H : exact_count (Some 3%Z) /\ exact_count (Some 5%Z)).
  { cbn. lia. }
  exact (proj1 (proj2 (available_to_sell_bounds (Some 3%Z) (Some 5%Z)
                         (proj1 H) (proj2 H)))
           3%Z 5%Z eq_refl eq_refl).
Defined.

(** ** What the locator returns, and when it throws *)

Lemma locate_result (product : option Product)
    (variantId optionId : option string) r w :
  match result (locate product variantId optionId r w) with
  | inr found =>
      fst found = locate_variant product variantId /\
      scoped product variantId optionId (fst found) (snd found) /\
      ~ lookup_unguarded product variantId optionId
  | inl e => e = TypeError /\ lookup_unguarded product variantId optionId
  end.
Proof.
  unfold locate, locate_option, lookup_unguarded, scoped, bind, and_then,
    ret, throw.
  assert (Hv : forall v, locate_variant product variantId = Some v ->
                         exists p, product = Some p /\
                                   In v (product_variants p) /\
                                   variantId = Some (variant_id v)).
  { intros v Hv. destruct product as [p|], variantId as [vid|];
      try discriminate Hv. unfold locate_variant in Hv.
    destruct (truthy (Some vid)); [|discriminate Hv].
    apply find_by_id_some in Hv as [Hin <-]. now exists p. }
  destruct product as [p|], variantId as [vid|], optionId as [oid|];
    cbn [result trace world fst snd];
    try (split; [reflexivity|]; split;
         [split; [exact Hv | discriminate]
         | intros (Hp & Htv & Hto & _);
           first [now destruct Hp | discriminate]]).
  destruct (truthy (Some vid)) eqn:Htv, (truthy (Some oid)) eqn:Hto;
    cbn [andb result trace world fst snd];
    try (split; [reflexivity|]; split;
         [split; [exact Hv | discriminate]
         | intros (_ & Ha & Hb & _); congruence]).
  destruct (locate_variant (Some p) (Some vid)) as [v|] eqn:Hlv;
    cbn [result trace world fst snd]; [|now repeat split].
  destruct (variant_options v) as [os|] eqn:Hos;
    cbn [result trace world fst snd]; [|now repeat split].
  split; [reflexivity|]. split.
  - split; [exact Hv|]. intros o Ho.
    apply find_by_id_some in Ho as [Hin <-]. now exists v, os.
  - intros (_ & _ & _ & Hno). congruence.
Qed.

Lemma useVariantInventory_outcome args routeParams currentShopId r w :
  let sel := resolve routeParams args currentShopId in
  UseVariantInventory.useVariantInventory args routeParams currentShopId r w
  = match result (locate (cache w) (sel_variantId sel) (sel_optionId sel)
                         r w) with
    | inl e => mkOutcome w [] (inl e)
    | inr found =>
        let currentVariant :=
          match snd found with
          | Some o => Some o
          | None => fst found
          end in
        mkOutcome w []
          (inr {| UseVariantInventory.res_currentVariant := currentVariant;
                  UseVariantInventory.res_hasChildVariants :=
                    UseVariantInventory.hasChildVariants currentVariant;
                  UseVariantInventory.res_queryVariables :=
                    UseVariantInventory.inventoryQueryVariables sel;
                  UseVariantInventory.res_option := snd found;
                  UseVariantInventory.res_product := cache w;
                  UseVariantInventory.res_refetch :=
                    UseVariantInventory.refetch;
                  UseVariantInventory.res_variant := fst found |})
    end.
Proof.
  cbv zeta. unfold UseVariantInventory.useVariantInventory.
  rewrite (bind_silent read_product _ r w w (cache w)) by reflexivity.
  pose proof (locate_reads_only (cache w)
                (sel_variantId (resolve routeParams args currentShopId))
                (sel_optionId (resolve routeParams args currentShopId))
                r w) as Hloc.
  destruct (result (locate _ _ _ r w)) as [e|found].
  - now rewrite (bind_silent_throw _ _ r w w e Hloc).
  - now rewrite (bind_silent _ _ r w w found Hloc).
Qed.

Lemma hooks_scoped (args : HookArgs)
    (routeParams : RouteParams) (currentShopId : option string)
    (r : Remote) (w : World) :
  let sel := resolve routeParams args currentShopId in
  (forall res,
      result (UseProduct.useProduct args routeParams currentShopId r w)
      = inr res ->
      scoped (cache w) (sel_variantId sel) (sel_optionId sel)
             (UseProduct.res_variant res) (UseProduct.res_option res)) /\
  (forall res,
      result (UseVariantInventory.useVariantInventory
                args routeParams currentShopId r w) = inr res ->
      scoped (cache w) (sel_variantId sel) (sel_optionId sel)
             (UseVariantInventory.res_variant res)
             (UseVariantInventory.res_option res) /\
      UseVariantInventory.res_currentVariant res
      = match UseVariantInventory.res_option res with
        | Some o => Some o
        | None => UseVariantInventory.res_variant res
        end).
Proof.
  cbv zeta.
  pose proof (locate_result (cache w)
                (sel_variantId (resolve routeParams args currentShopId))
                (sel_optionId (resolve routeParams args currentShopId))
                r w) as Hloc.
  split; intros res Hres.
  - rewrite useProduct_outcome in Hres. cbv zeta in Hres.
    destruct (result (locate _ _ _ r w)) as [e|found]; [discriminate|].
    injection Hres as <-. apply Hloc.
  - rewrite useVariantInventory_outcome in Hres. cbv zeta in Hres.
    destruct (result (locate _ _ _ r w)) as [e|found]; [discriminate|].
    injection Hres as <-. split; [apply Hloc | reflexivity].
Qed.

(** X13. Whatever a render pass of either hook returns is scoped to its
    parent: the returned variant is one of the loaded product's variants
    and carries the resolved variant id; a returned option is one of the
    options of the returned variant, never of another one, and carries
    the resolved option id. In useVariantInventory the current variant is
    the option when one is returned and the variant otherwise. *)
Theorem located_entities_are_scoped (args : HookArgs)
    (routeParams : RouteParams) (currentShopId : option string)
    (r : Remote) (w : World) :
  let sel := resolve routeParams args currentShopId in
  (forall res,
      result (UseProduct.useProduct args routeParams currentShopId r w)
      = inr res ->
      scoped (cache w) (sel_variantId sel) (sel_optionId sel)
             (UseProduct.res_variant res) (UseProduct.res_option res)) /\
  (forall res,
      result (UseVariantInventory.useVariantInventory
                args routeParams currentShopId r w) = inr res ->
      scoped (cache w) (sel_variantId sel) (sel_optionId sel)
             (UseVariantInventory.res_variant res)
             (UseVariantInventory.res_option res) /\
      UseVariantInventory.res_currentVariant res
      = match UseVariantInventory.res_option res with
        | Some o => Some o
        | None => UseVariantInventory.res_variant res
        end).
Proof. exact (hooks_scoped args routeParams currentShopId r w). Qed.

Lemma located_entities_are_scoped_witness :
  let o1 := mkVariant "o1" None None in
  let v1 := mkVariant "v1" None (Some [o1]) in
  let p := mkProduct "p1" None [] None [v1] ∅ in
  let r := mkRemote (fun _ => inr []) (fun _ => inr tt) in
  scoped (Some p) (Some "v1") (Some "o1") (Some v1) (Some o1).
Proof.
  cbv zeta.
  refine (proj1 (located_entities_are_scoped
                   (mkHookArgs None None None)
                   (mkRouteParams (Some "p1") (Some "v1") (Some "o1") None)
                   None
                   (mkRemote (fun _ => inr []) (fun _ => inr tt))
                   (mkWorld (Some _) []))
            (UseProduct.mkResult _ _ (refetchQuery ProductQuery) _ _) _).
  reflexivity.
Defined.

(** X14. Over a query result whose product, when there is one, has its
    variants in an array, a render pass of either hook throws in one
    situation only, and then with a TypeError: a product is loaded, a
    variant id and an option id are both present, and the variant id
    names no variant of the product or names one without an options
    array. In every other situation over such a result, a missing
    product, variant id or option id included, the render pass returns.
    (A product whose variants are no array is not a [Product]; there the
    variant lookup itself throws.) *)
Theorem render_throws_iff (args : HookArgs) (routeParams : RouteParams)
    (currentShopId : option string) (r : Remote) (w : World) :
  let sel := resolve routeParams args currentShopId in
  let unguarded :=
    lookup_unguarded (cache w) (sel_variantId sel) (sel_optionId sel) in
  (forall e,
      result (UseProduct.useProduct args routeParams currentShopId r w)
      = inl e <-> e = TypeError /\ unguarded) /\
  (forall e,
      result (UseVariantInventory.useVariantInventory
                args routeParams currentShopId r w) = inl e
      <-> e = TypeError /\ unguarded).
Proof.
  cbv zeta.
  pose proof (locate_result (cache w)
                (sel_variantId (resolve routeParams args currentShopId))
                (sel_optionId (resolve routeParams args currentShopId))
                r w) as Hloc.
  split; intros e;
    [rewrite useProduct_outcome | rewrite useVariantInventory_outcome];
    cbv zeta;
    destruct (result (locate _ _ _ r w)) as [e'|found];
    cbn [result]; (split; [intros H | intros [-> H]]).
  all: try (injection H as <-; exact Hloc).
  all: try discriminate H.
  all: try (destruct Hloc as [-> _]; reflexivity).
  all: destruct Hloc as (_ & _ & Hno); contradiction.
Qed.

Lemma render_throws_iff_witness :
  let p := mkProduct "p1" None [] None [mkVariant "v1" None None] ∅ in
  let r := mkRemote (fun _ => inr []) (fun _ => inr tt) in
  result (UseProduct.useProduct
            (mkHookArgs None None None)
            (mkRouteParams (Some "p1") (Some "v1") (Some "o1") None)
            None r (mkWorld (Some p) []))
  = inl TypeError.
Proof.
  cbv zeta.
  apply (proj1 (render_throws_iff _ _ _ _ _)).
  split; [reflexivity|]. repeat split. now eexists.
Defined.

(** ** What the inventory form renders *)

Lemma render_cases (cv : option Variant) (isLoading : bool) :
  let view :=
    VariantInventoryForm.render
      cv isLoading (UseVariantInventory.hasChildVariants cv) in
  (view = VariantInventoryForm.RenderNull <-> cv = None) /\
  (view = VariantInventoryForm.RenderForm
   <-> isLoading = false /\
       exists c, cv = Some c /\
                 (variant_options c = None \/ variant_options c = Some [])) /\
  (view = VariantInventoryForm.RenderNoInventoryTracking
   <-> isLoading = false /\
       exists c o os, cv = Some c /\ variant_options c = Some (o :: os)).
Proof.
  cbv zeta.
  unfold VariantInventoryForm.render, UseVariantInventory.hasChildVariants.
  destruct cv as [c|], isLoading;
    try destruct (variant_options c) as [[|x os]|] eqn:Ho; cbn;
    (split; [|split]); split;
    try discriminate; try reflexivity;
    try (intros [Hl _]; discriminate Hl);
    try (intros (_ & c' & Hc); discriminate Hc);
    try (intros (_ & c' & o' & os' & Hc & _); discriminate Hc);
    try (intros (_ & c' & Hc & [Hn|Hn]); injection Hc as <-; congruence);
    try (intros (_ & c' & o' & os' & Hc & Hn); injection Hc as <-;
         congruence);
    try (intros (_ & c' & Hc & _); discriminate Hc);
    intros _; (split; [reflexivity|]); eauto 6.
Qed.

(** X15. What VariantInventoryForm renders from a render pass of
    useVariantInventory: nothing exactly when no variant is located; the
    form exactly when the inventory info is not loading and the current
    variant (the option when one is located, the variant otherwise) has
    no options array or an empty one; the no-inventory-tracking message
    exactly when it is not loading and the current variant has at least
    one option. *)
Theorem inventory_form_view (args : HookArgs) (routeParams : RouteParams)
    (currentShopId : option string) (r : Remote) (w : World)
    (isLoading : bool) (res : UseVariantInventory.Result) :
  result (UseVariantInventory.useVariantInventory
            args routeParams currentShopId r w) = inr res ->
  let view :=
    VariantInventoryForm.render
      (UseVariantInventory.res_currentVariant res) isLoading
      (UseVariantInventory.res_hasChildVariants res) in
  (view = VariantInventoryForm.RenderNull
   <-> UseVariantInventory.res_variant res = None) /\
  (view = VariantInventoryForm.RenderForm
   <-> isLoading = false /\
       exists cv, UseVariantInventory.res_currentVariant res = Some cv /\
                  (variant_options cv = None \/
                   variant_options cv = Some [])) /\
  (view = VariantInventoryForm.RenderNoInventoryTracking
   <-> isLoading = false /\
       exists cv o os,
         UseVariantInventory.res_currentVariant res = Some cv /\
         variant_options cv = Some (o :: os)).
Proof.
  intros Hres.
  pose proof (proj2 (hooks_scoped
                       args routeParams currentShopId r w) res Hres)
    as [[_ Hopt] Hcur].
  assert (Hchild : UseVariantInventory.res_hasChildVariants res
                   = UseVariantInventory.hasChildVariants
                       (UseVariantInventory.res_currentVariant res)).
  { rewrite useVariantInventory_outcome in Hres. cbv zeta in Hres.
    destruct (result (locate _ _ _ r w)); [discriminate|].
    now injection Hres as <-. }
  rewrite Hchild.
  pose proof (render_cases (UseVariantInventory.res_currentVariant res)
                           isLoading) as (Hnull & Hform & Hnone).
  cbv zeta in *. split; [|split; assumption].
  rewrite Hnull, Hcur.
  destruct (UseVariantInventory.res_option res) as [o|] eqn:Ho;
    [|reflexivity].
  destruct (Hopt o eq_refl) as (v & _ & Hv & _). rewrite Hv.
  split; discriminate.
Qed.

Lemma inventory_form_view_witness :
  let leaf := mkVariant "v1" None (Some []) in
  let p := mkProduct "p1" None [] None [leaf] ∅ in
  let r := mkRemote (fun _ => inr []) (fun _ => inr tt) in
  VariantInventoryForm.render (Some leaf) false false
  = VariantInventoryForm.RenderForm.
Proof.
  cbv zeta.
  pose proof (inventory_form_view
                (mkHookArgs None None None)
                (mkRouteParams (Some "p1") (Some "v1") None None) None
                (mkRemote (fun _ => inr []) (fun _ => inr tt))
                (mkWorld
                   (Some (mkProduct "p1" None [] None
                                    [mkVariant "v1" None (Some [])] ∅)) [])
                false _ eq_refl) as (_ & Hform & _).
  apply Hform. split; [reflexivity|]. eexists. split; [reflexivity|].
  now right.
Defined.

(** ** The converted social metadata *)



Lemma lookup_socialProps (entries : list SocialMetadata)
    (props : gmap string string) (key : string) :
  socialProps entries props !! key
  = match last_message entries key with
    | Some m => Some m
    | None => props !! key
    end.
Proof.
  unfold socialProps. revert props.
  induction entries as [|entry rest IH]; intros props; [reflexivity|].
  cbn [foldl last_message]. rewrite IH.
  destruct (last_message rest key); [reflexivity|].
  destruct (String.eqb_spec (service entry ++ "Msg") key) as [<-|Hne].
  - apply lookup_insert_eq.
  - now apply lookup_insert_ne.
Qed.





Lemma converted_idempotent (p : Product) :
  converted (converted p) = converted p.
Proof.
  unfold converted, UseProduct.with_props.
  cbn [product_id product_isVisible product_tags product_socialMetadata
       product_variants product_props].
  f_equal. apply map_eq. intros key. rewrite !lookup_socialProps.
  now destruct (last_message _ key).
Qed.

Lemma locate_converted (product : option Product)
    (variantId optionId : option string) r w w' :
  result (locate (converted <$> product) variantId optionId r w')
  = result (locate product variantId optionId r w).
Proof.
  unfold locate, locate_option, locate_variant, bind, and_then, ret, throw.
  destruct product as [p|], variantId as [vid|], optionId as [oid|];
    try reflexivity.
  cbn [fmap option_fmap option_map converted UseProduct.with_props
       product_variants].
  destruct (truthy (Some vid)), (truthy (Some oid)); try reflexivity.
  cbn [andb].
  destruct (find_by_id variant_id vid (product_variants p)) as [v|];
    [|reflexivity].
  now destruct (variant_options v).
Qed.

(** X17. Rendering again changes nothing more: a second render pass of
    useProduct, with the same arguments, over the world the first one
    left, returns the same result and leaves the cached product as the
    first pass left it. *)
Theorem render_twice_is_render_once (args : HookArgs)
    (routeParams : RouteParams) (currentShopId : option string)
    (r : Remote) (w : World) :
  let first := UseProduct.useProduct args routeParams currentShopId r w in
  let second :=
    UseProduct.useProduct args routeParams currentShopId r (world first) in
  world second = world first /\ result second = result first.
Proof.
  cbv zeta. rewrite !useProduct_outcome. cbv zeta.
  destruct (result (locate (cache w) _ _ r w)) as [e|found] eqn:Hloc;
    cbn [world cache inflight].
  - rewrite Hloc. now split.
  - rewrite (locate_converted (cache w) _ _ r w), Hloc.
    cbn [world result cache inflight].
    assert (Hcache : converted <$> (converted <$> cache w)
                     = converted <$> cache w).
    { destruct (cache w) as [p|]; cbn; [|reflexivity].
      now rewrite converted_idempotent. }
    now rewrite Hcache.
Qed.

(** ** The identifiers of the variants *)

(** X18. getVariantIds lists, in order and one for one, the identifiers
    of the variants it is given, and answers false (no list) for a value
    that is no array; a non-empty variant id is among the identifiers of
    the loaded product's variants exactly when the locator finds a
    variant for it. *)
Theorem variant_ids_are_the_locatable_ones (p : Product) (vid : string) :
  UseProduct.getVariantIds None = None /\
  (exists ids,
      UseProduct.getVariantIds (Some (product_variants p)) = Some ids /\
      length ids = length (product_variants p) /\
      (forall i v, product_variants p !! i = Some v ->
                   ids !! i = Some (variant_id v)) /\
      (vid <> "" ->
       In vid ids <-> is_Some (locate_variant (Some p) (Some vid)))).
Proof.
  split; [reflexivity|].
  exists (map variant_id (product_variants p)). split; [reflexivity|].
  split; [apply length_map|]. split.
  - intros i v Hv. now rewrite list_lookup_fmap, Hv.
  - intros Hne. unfold locate_variant, truthy, truthy_id.
    destruct (String.eqb_spec vid ""); [contradiction|]. cbn.
    unfold find_by_id. split.
    + intros Hin. apply in_map_iff in Hin as (v & Hid & Hv).
      destruct (List.find _ _) eqn:Hf; [now eexists|].
      pose proof (List.find_none _ _ Hf v Hv) as Hno. cbn in Hno.
      apply String.eqb_neq in Hno. contradiction.
    + intros [v Hf]. apply List.find_some in Hf as [Hin Heq].
      apply String.eqb_eq in Heq. apply in_map_iff. now exists v.
Qed.

Lemma variant_ids_are_the_locatable_ones_witness :
  let p := mkProduct "p1" None [] None
                     [mkVariant "v1" None None; mkVariant "v2" None None]
                     ∅ in
  exists v, locate_variant (Some p) (Some "v2") = Some v.
Proof.
  cbv zeta.
  destruct (variant_ids_are_the_locatable_ones
              (mkProduct "p1" None [] None
                         [mkVariant "v1" None None;
                          mkVariant "v2" None None] ∅) "v2")
    as (_ & ids & Hids & _ & _ & Hloc).
  apply Hloc; [discriminate|].
  injection Hids as <-. cbn. tauto.
Defined.

(** ** What an error notification carries *)

Lemma perform_toasts product sel op r w key err sev (o : Outcome unit) :
  o = perform product sel op r w ->
  In (Toast key err sev) (trace o) ->
  match sev with
  | sev_success => err = None
  | sev_error =>
      exists e, err = Some e /\
                ((exists q, submitted (trace o) = [q] /\ send r q = inl e) \/
                 (e = TypeError /\ submitted (trace o) = []))
  end.
Proof.
  revert o. destruct sel as [? ? ? ?]; destruct op; evaluate.
  all: intros o -> Hin; cbn in Hin.
  all: repeat match goal with
              | H : _ \/ _ |- _ => destruct H
              | H : False |- _ => destruct H
              | H : Toast _ _ _ = Toast _ _ _ |- _ =>
                  inversion H; subst; clear H
              | H : _ = _ :> Event |- _ => discriminate H
              end.
  all: try reflexivity.
  all: eexists; split; [reflexivity|]; cbn;
    first [ left; eexists; split; [reflexivity | eassumption]
          | right; split; reflexivity ].
Qed.

(** X19. What a toast of a handler carries: a success toast carries no
    error; an error toast carries the error that was caught, which is
    either the very error the remote returned for the one request the
    call submitted, or a TypeError raised before any request was
    submitted. *)
Theorem error_toast_carries_the_cause (product : option Product)
    (sel : Selection) (op : Operation) (r : Remote) (w : World)
    (key : string) (err : option Err) (sev : Severity) :
  let o := perform product sel op r w in
  In (Toast key err sev) (trace o) ->
  match sev with
  | sev_success => err = None
  | sev_error =>
      exists e, err = Some e /\
                ((exists q, submitted (trace o) = [q] /\ send r q = inl e) \/
                 (e = TypeError /\ submitted (trace o) = []))
  end.
Proof.
  cbv zeta. exact (perform_toasts product sel op r w key err sev _ eq_refl).
Qed.

Lemma error_toast_carries_the_cause_witness :
  let r := mkRemote (fun _ => inr []) (fun _ => inl (Failure "down")) in
  let sel := mkSelection None None None (Some "s1") in
  let o := perform None sel (CreateVariant (Some "p1") None) r
                   (mkWorld None []) in
  exists e, Some (Failure "down") = Some e /\
            ((exists q, submitted (trace o) = [q] /\ send r q = inl e) \/
             (e = TypeError /\ submitted (trace o) = [])).
Proof.
  cbv zeta.
  apply (error_toast_carries_the_cause
           None (mkSelection None None None (Some "s1"))
           (CreateVariant (Some "p1") None)
           (mkRemote (fun _ => inr []) (fun _ => inl (Failure "down")))
           (mkWorld None []) "productDetailEdit.addVariantFail"
           (Some (Failure "down")) sev_error).
  cbn. right. left. reflexivity.
Defined.
